(** * PhishSense AI: the detection engine of [phishing_detector.py]

    A shallow embedding of the rule-based phishing detector and the
    properties its specification states about it.

    Modelling conventions.
    - A Python [str] is a [text]: a list of characters.  The embedding
      covers ASCII text; the character classes ([str.isspace],
      [str.isalpha], [str.lower], the regex classes [\s], [\S], [\d])
      are their ASCII tables.  A byte above 0x7f that percent-decoding
      produces stays one character that belongs to no class (Python
      decodes such bytes as UTF-8).
    - Python [int]s are [Z]; the keyword scores and the ratios, which
      Python holds in floats, are exact rationals [Q]; the risk score,
      which goes through [2.718 ** x], is a real number [R] with ideal
      arithmetic ([Rpower] for [**]).
    - A Python exception is a [Raise] outcome; the wall clock read by
      [_get_timestamp] is an argument [now]. *)

From Stdlib Require Import List Bool Arith ZArith QArith Lia.
From Stdlib Require Import Ascii String.
From Stdlib Require Import Reals Lra Qreals R_Ifp Rpower.
Import ListNotations.

(** ** Characters and text *)

Definition text := list ascii.

Definition str (s : string) : text := list_ascii_of_string s.

Definition code (c : ascii) : N := N_of_ascii c.

Definition between (lo hi : N) (c : ascii) : bool :=
  ((lo <=? code c) && (code c <=? hi))%N.

(** [str.isspace], [\s]: tab, LF, VT, FF, CR, the separators 0x1c-0x1f,
    space. *)
Definition isspace (c : ascii) : bool :=
  between 9 13 c || between 28 32 c.

Definition isdigit (c : ascii) : bool := between 48 57 c.

Definition isupper (c : ascii) : bool := between 65 90 c.

Definition islower (c : ascii) : bool := between 97 122 c.

Definition isalpha (c : ascii) : bool := isupper c || islower c.

(** [string.punctuation] *)
Definition is_punctuation (c : ascii) : bool :=
  between 33 47 c || between 58 64 c || between 91 96 c || between 123 126 c.

Definition lower_char (c : ascii) : ascii :=
  if isupper c then ascii_of_N (code c + 32) else c.

Definition lower (s : text) : text := map lower_char s.

Definition text_eqb (a b : text) : bool :=
  if list_eq_dec ascii_dec a b then true else false.

(** Python truthiness of a string *)
Definition truthy (s : text) : bool :=
  match s with [] => false | _ :: _ => true end.

Fixpoint lstrip (p : ascii -> bool) (s : text) : text :=
  match s with
  | [] => []
  | c :: s' => if p c then lstrip p s' else s
  end.

Fixpoint rstrip (p : ascii -> bool) (s : text) : text :=
  match s with
  | [] => []
  | c :: s' =>
      match rstrip p s' with
      | [] => if p c then [] else [c]
      | r => c :: r
      end
  end.

(** [s.strip()] and [s.strip(chars)] *)
Definition strip_by (p : ascii -> bool) (s : text) : text :=
  rstrip p (lstrip p s).

Definition strip (s : text) : text := strip_by isspace s.

Fixpoint starts_with (p s : text) : bool :=
  match p, s with
  | [], _ => true
  | _ :: _, [] => false
  | a :: p', b :: s' => Ascii.eqb a b && starts_with p' s'
  end.

Definition ends_with (p s : text) : bool := starts_with (rev p) (rev s).

(** [p in s] *)
Fixpoint contains (p s : text) : bool :=
  starts_with p s ||
  match s with
  | [] => false
  | _ :: s' => contains p s'
  end.

Definition head_is (p : ascii -> bool) (s : text) : bool :=
  match s with [] => false | c :: _ => p c end.

(** [s.split()]: the maximal runs of non-whitespace characters *)
Fixpoint split_from (cur : text) (s : text) : list text :=
  match s with
  | [] => match cur with [] => [] | _ => [rev cur] end
  | c :: s' =>
      if isspace c
      then match cur with [] => split_from [] s' | _ => rev cur :: split_from [] s' end
      else split_from (c :: cur) s'
  end.

Definition split (s : text) : list text := split_from [] s.

Definition count_if (p : ascii -> bool) (s : text) : Z :=
  Z.of_nat (List.length (filter p s)).

Definition len (s : text) : Z := Z.of_nat (List.length s).

(** ** 1. Text preprocessing *)

(** [re.sub(r'\s+', ' ', text)]: every maximal run of whitespace becomes
    one space.  The space is emitted at the last character of the run. *)
Fixpoint sub_whitespace (s : text) : text :=
  match s with
  | [] => []
  | c :: s' =>
      if isspace c
      then if head_is isspace s' then sub_whitespace s'
           else " "%char :: sub_whitespace s'
      else c :: sub_whitespace s'
  end.

Definition hex_value (c : ascii) : option N :=
  if isdigit c then Some (code c - 48)%N
  else if between 65 70 c then Some (code c - 55)%N
  else if between 97 102 c then Some (code c - 87)%N
  else None.

(** [urllib.parse.unquote]: [%XY] with two hexadecimal digits becomes
    the byte 0xXY; a [%] not followed by two hexadecimal digits stays. *)
Fixpoint unquote (s : text) : text :=
  match s with
  | [] => []
  | c :: s' =>
      if Ascii.eqb c "%"%char
      then match s' with
           | h1 :: h2 :: s'' =>
               match hex_value h1, hex_value h2 with
               | Some a, Some b => ascii_of_N (16 * a + b) :: unquote s''
               | _, _ => c :: unquote s'
               end
           | _ => c :: unquote s'
           end
      else c :: unquote s'
  end.

(** The class [[!?.]] *)
Definition is_mark (c : ascii) : bool :=
  Ascii.eqb c "!"%char || Ascii.eqb c "?"%char || Ascii.eqb c "."%char.

(** [re.sub(r'([!?.]){2,}', r'\1', text)]: a maximal run of two or more
    marks is replaced by group 1, which holds the last mark the repeated
    group matched; a single mark is not matched and stays.  Either way
    what remains of a run is its last character. *)
Fixpoint sub_marks (s : text) : text :=
  match s with
  | [] => []
  | c :: s' =>
      if is_mark c && head_is is_mark s' then sub_marks s'
      else c :: sub_marks s'
  end.

Definition preprocess_text (t : text) : text :=
  if negb (truthy t) then []
  else
    let t := strip (lower t) in
    let t := sub_whitespace t in
    let t := unquote t in
    let t := sub_marks t in
    t.

(** ** URL extraction *)

Definition url_prefixes : list text :=
  map str ["https://"; "http://"; "www."; "bit.ly/"; "tinyurl.com/"; "goo.gl/"]%string.

(** One alternative of [url_pattern] matches at the head of [s]: the
    literal prefix, then [\S+]. *)
Definition url_starts (s : text) : bool :=
  existsb (fun p => starts_with p s &&
                    head_is (fun c => negb (isspace c)) (skipn (List.length p) s))
          url_prefixes.

Fixpoint take_nonspace (s : text) : text :=
  match s with
  | [] => []
  | c :: s' => if isspace c then [] else c :: take_nonspace s'
  end.

(** [re.findall(url_pattern, text)].  Every literal prefix is free of
    whitespace and [\S+] is greedy, so a match runs from its start to
    the end of the run of non-whitespace characters it starts in, and
    the scan resumes behind that run ([inside] is set while the scan is
    within a reported match). *)
Fixpoint findall_urls (inside : bool) (s : text) : list text :=
  match s with
  | [] => []
  | c :: s' =>
      if inside
      then findall_urls (negb (isspace c)) s'
      else if url_starts s
           then take_nonspace s :: findall_urls true s'
           else findall_urls false s'
  end.

Definition dquote : ascii := ascii_of_N 34.

(** The characters [url.strip] is given: the dot, comma, semicolon and
    colon, the three pairs of brackets, and both quotes. *)
Definition strip_chars : text := str ".,;:()[]{}'" ++ [dquote].

Definition is_strip_char (c : ascii) : bool :=
  existsb (Ascii.eqb c) strip_chars.

Definition extract_urls (t : text) : list text :=
  map (strip_by is_strip_char) (findall_urls false t).

(** ** Python exceptions *)

Inductive exn : Type :=
| KeyError (key : string)
| ValueError (message : string).

Inductive outcome (A : Type) : Type :=
| Return (a : A)
| Raise (e : exn).

Arguments Return {A} a.
Arguments Raise {A} e.

Definition bind {A B : Type} (m : outcome A) (k : A -> outcome B) : outcome B :=
  match m with
  | Return a => k a
  | Raise e => Raise e
  end.

Notation "x <- m ;; k" := (bind m (fun x => k))
  (at level 61, m at next level, right associativity).

(** ** Regular expressions whose only use is a yes/no match

    [re.search] and [re.match] are used for their truth value, which
    depends on the language of the pattern alone; it is decided here by
    derivatives. *)

Inductive regex : Type :=
| Void
| Eps
| Cls (p : ascii -> bool)
| Cat (r1 r2 : regex)
| Alt (r1 r2 : regex)
| Star (r : regex).

Definition cat (r1 r2 : regex) : regex :=
  match r1, r2 with
  | Void, _ => Void
  | _, Void => Void
  | Eps, _ => r2
  | _, _ => Cat r1 r2
  end.

Definition alt (r1 r2 : regex) : regex :=
  match r1, r2 with
  | Void, _ => r2
  | _, Void => r1
  | _, _ => Alt r1 r2
  end.

Fixpoint nullable (r : regex) : bool :=
  match r with
  | Void => false
  | Eps => true
  | Cls _ => false
  | Cat r1 r2 => nullable r1 && nullable r2
  | Alt r1 r2 => nullable r1 || nullable r2
  | Star _ => true
  end.

Fixpoint deriv (c : ascii) (r : regex) : regex :=
  match r with
  | Void => Void
  | Eps => Void
  | Cls p => if p c then Eps else Void
  | Cat r1 r2 =>
      if nullable r1
      then alt (cat (deriv c r1) r2) (deriv c r2)
      else cat (deriv c r1) r2
  | Alt r1 r2 => alt (deriv c r1) (deriv c r2)
  | Star r1 => cat (deriv c r1) (Star r1)
  end.

(** [re.match(r, s)] as a truth value: some prefix of [s] is in [r]. *)
Fixpoint re_match (r : regex) (s : text) : bool :=
  nullable r ||
  match s with
  | [] => false
  | c :: s' => re_match (deriv c r) s'
  end.

(** [re.search(r, s)] as a truth value: [r] matches at some position. *)
Fixpoint re_search (r : regex) (s : text) : bool :=
  re_match r s ||
  match s with
  | [] => false
  | _ :: s' => re_search r s'
  end.

Fixpoint lit_text (s : text) : regex :=
  match s with
  | [] => Eps
  | c :: s' => Cat (Cls (Ascii.eqb c)) (lit_text s')
  end.

Definition lit (s : string) : regex := lit_text (str s).
Definition plus (r : regex) : regex := Cat r (Star r).
Definition opt (r : regex) : regex := Alt r Eps.
Definition digit : regex := Cls isdigit.

Fixpoint seq (rs : list regex) : regex :=
  match rs with
  | [] => Eps
  | r :: rs' => Cat r (seq rs')
  end.

(** ** [urllib.parse.urlparse]

    The part of the standard library's [urlparse] that [_analyze_url]
    reads: the network location and the path.  [_analyze_url] hands it
    text that starts with [http] and holds no whitespace, so the
    stripping of leading control characters and the removal of tab, CR
    and LF that [urlsplit] starts with change nothing and are left
    out.  The one failure modelled is the one every release has: a
    network location with one square bracket and not the other raises
    [ValueError]. *)

Fixpoint break_at (p : ascii -> bool) (s : text) : text * text :=
  match s with
  | [] => ([], [])
  | c :: s' =>
      if p c then ([], s)
      else let (a, b) := break_at p s' in (c :: a, b)
  end.

Definition is_char (a : ascii) (c : ascii) : bool := Ascii.eqb c a.

Definition one_of (chars : string) (c : ascii) : bool :=
  existsb (Ascii.eqb c) (str chars).

Definition has_char (a : ascii) (s : text) : bool := existsb (is_char a) s.

Definition scheme_char (c : ascii) : bool :=
  isalpha c || isdigit c || one_of "+-." c.

Definition uses_params : list string :=
  [ ""; "ftp"; "hdl"; "prospero"; "http"; "imap"; "https"; "shttp"; "rtsp";
    "rtspu"; "sip"; "sips"; "mms"; "sftp"; "tel" ]%string.

(** [url.rfind('/')] then [url.find(';', i)]: the text before the first
    semicolon of the last path segment *)
Fixpoint last_segment_start (s : text) : text :=
  match s with
  | [] => []
  | c :: s' =>
      if has_char "/"%char s' then c :: last_segment_start s'
      else c :: fst (break_at (is_char ";"%char) s')
  end.

Definition _splitparams (url : text) : text :=
  if has_char "/"%char url then last_segment_start url
  else fst (break_at (is_char ";"%char) url).

Definition urlparse (url : text) : outcome (text * text) :=
  let '(scheme, url) :=
    match break_at (is_char ":"%char) url with
    | (a, _ :: rest) =>
        if head_is isalpha a && forallb scheme_char a
        then (lower a, rest) else ([], url)
    | (_, []) => ([], url)
    end in
  r <- (if starts_with (str "//") url
        then
          let (netloc, rest) := break_at (one_of "/?#") (skipn 2 url) in
          if (has_char "["%char netloc && negb (has_char "]"%char netloc))
             || (has_char "]"%char netloc && negb (has_char "["%char netloc))
          then Raise (ValueError "Invalid IPv6 URL")
          else Return (netloc, rest)
        else Return ([], url)) ;;
  let '(netloc, url) := r in
  let url := fst (break_at (is_char "#"%char) url) in
  let url := fst (break_at (is_char "?"%char) url) in
  let path :=
    if existsb (fun u => text_eqb (str u) scheme) uses_params
       && has_char ";"%char url
    then _splitparams url else url in
  Return (netloc, path).

(** ** 2. Feature extraction *)

Module FeatureExtractor.

Definition threat_keywords : list (string * Q) :=
  [ ("urgent", 1.5); ("immediate", 1.5); ("asap", 1.5); ("critical", 1.5);
    ("emergency", 1.5); ("important", 1.3); ("verify", 1.4); ("confirm", 1.3);
    ("suspended", 1.6); ("blocked", 1.6); ("locked", 1.6); ("terminated", 1.6);
    ("expired", 1.4); ("warning", 1.3); ("alert", 1.3); ("attention", 1.2);
    ("required", 1.2); ("necessary", 1.2); ("compulsory", 1.3) ]%Q%string.

Definition auth_keywords : list (string * Q) :=
  [ ("login", 1.4); ("password", 1.6); ("credentials", 1.6);
    ("authenticate", 1.5); ("account", 1.4); ("security", 1.3);
    ("reset", 1.5); ("update", 1.3); ("verify", 1.4); ("confirm", 1.3);
    ("username", 1.4); ("signin", 1.4); ("sign-in", 1.4);
    ("two-factor", 1.5); ("2fa", 1.5); ("multi-factor", 1.5);
    ("access", 1.3); ("authorize", 1.4); ("validation", 1.3) ]%Q%string.

Definition financial_keywords : list (string * Q) :=
  [ ("bank", 1.5); ("paypal", 1.6); ("credit", 1.4); ("payment", 1.4);
    ("money", 1.3); ("refund", 1.5); ("invoice", 1.4); ("billing", 1.4);
    ("transaction", 1.5); ("otp", 1.6); ("pin", 1.6); ("card", 1.5);
    ("wire", 1.4); ("transfer", 1.5); ("deposit", 1.4); ("withdrawal", 1.4);
    ("fee", 1.3); ("charge", 1.3); ("statement", 1.3); ("balance", 1.3) ]%Q%string.

Definition impersonation_keywords : list (string * Q) :=
  [ ("irs", 1.6); ("microsoft", 1.5); ("apple", 1.5); ("google", 1.5);
    ("amazon", 1.5); ("paypal", 1.6); ("fedex", 1.4); ("ups", 1.4);
    ("dhl", 1.4); ("usps", 1.4); ("government", 1.5); ("official", 1.4);
    ("support", 1.3); ("customer", 1.3); ("service", 1.3); ("team", 1.2) ]%Q%string.

Definition url_shorteners : list string :=
  [ "bit.ly"; "tinyurl.com"; "goo.gl"; "ow.ly"; "is.gd";
    "adf.ly"; "shorte.st"; "t.co"; "buff.ly"; "cutt.ly";
    "shorturl.at"; "rb.gy"; "bc.vc"; "soo.gd"; "s2r.co";
    "click.ru"; "clck.ru"; "tiny.cc"; "tr.im"; "qr.net" ]%string.

Definition suspicious_tlds : list string :=
  [ ".xyz"; ".top"; ".club"; ".work"; ".site"; ".online"; ".click"; ".link" ]%string.


Record url_info : Type := {
  original : text;
  domain : text;
  path : text;
  is_shortener : bool;
  has_suspicious_tld : bool;
  is_ip_address : bool;
  has_login_keywords : bool;
  url_length : Z
}.

(** The dictionary [_analyze_url] returns: the eight entries of a parsed
    URL, or the two entries [original] and [error]. *)
Inductive url_feat : Type :=
| Analysed (i : url_info)
| Degraded (original : text) (error : string).

(** [url_feat[key]] for the three entries [extract_features] reads *)
Definition getitem (u : url_feat) (key : string) : outcome bool :=
  match u with
  | Analysed i =>
      if String.eqb key "is_shortener" then Return (is_shortener i)
      else if String.eqb key "has_suspicious_tld" then Return (has_suspicious_tld i)
      else if String.eqb key "is_ip_address" then Return (is_ip_address i)
      else Raise (KeyError key)
  | Degraded _ _ => Raise (KeyError key)
  end.

(** [\d+\.\d+\.\d+\.\d+] *)
Definition ip_pattern : regex :=
  seq [plus digit; lit "."; plus digit; lit "."; plus digit; lit "."; plus digit].

Definition _analyze_url (url : text) : url_feat :=
  match urlparse (if starts_with (str "http") url then url
                  else str "http://" ++ url) with
  | Return (netloc, p) =>
      let domain := lower netloc in
      let path := lower p in
      Analysed {|
        original := url;
        domain := domain;
        path := path;
        is_shortener :=
          existsb (fun short => contains (str short) domain) url_shorteners;
        has_suspicious_tld :=
          existsb (fun tld => ends_with (str tld) domain) suspicious_tlds;
        is_ip_address := re_match ip_pattern domain;
        has_login_keywords :=
          existsb (fun keyword => contains (str keyword) path)
                  ["login"; "signin"; "verify"; "secure"]%string;
        url_length := len url
      |}
  | Raise _ => Degraded url "parse_failed"
  end.

Definition ratio (a b : Z) : Q := inject_Z a / inject_Z b.

Definition _calculate_caps_ratio (t : text) : Q :=
  if negb (truthy t) then 0
  else
    let letters := filter isalpha t in
    if negb (truthy letters) then 0
    else ratio (count_if isupper letters) (len letters).

Definition _check_greeting (t : text) : Z :=
  let greetings :=
    ["hi"; "hello"; "dear"; "greetings"; "good morning"; "good afternoon"]%string in
  let first_50 := lower (firstn 50 t) in
  if existsb (fun greet => contains (str greet) first_50) greetings then 0 else 1.

Definition urgency_patterns : list regex :=
  [ seq [lit "within "; plus digit; lit " hour"; opt (lit "s")];
    seq [lit "within "; plus digit; lit " day"; opt (lit "s")];
    lit "immediate action";
    lit "act now";
    lit "don't delay";
    lit "limited time";
    lit "expires soon";
    lit "last chance" ].

Definition _check_urgency_indicators (t : text) : Z :=
  if existsb (fun pattern => re_search pattern t) urgency_patterns then 1 else 0.

Definition _check_generic_greeting (t : text) : Z :=
  let generic_greetings :=
    ["dear customer"; "dear user"; "dear account holder"; "valued customer"]%string in
  let first_100 := lower (firstn 100 t) in
  if existsb (fun greet => contains (str greet) first_100) generic_greetings
  then 1 else 0.

Record feature_record : Type := {
  threat_score : Q;
  auth_score : Q;
  financial_score : Q;
  impersonation_score : Q;
  total_urls : Z;
  suspicious_urls : Z;
  suspicious_domains : Z;
  ip_address_urls : Z;
  url_details : list url_feat;
  exclamation_count : Z;
  all_caps_ratio : Q;
  digit_ratio : Q;
  special_char_ratio : Q;
  greeting_missing : Z;
  sense_of_urgency : Z;
  generic_greeting : Z
}.

(** [sum(table[word] for word in tokens & table.keys())] *)
Definition keyword_score (table : list (string * Q)) (tokens : list text) : Q :=
  fold_left
    (fun acc kw => if existsb (text_eqb (str (fst kw))) tokens
                   then acc + snd kw else acc)
    table 0.

(** The loop over the URLs: the three counters and the list
    [url_features] as the loop leaves them, or the exception that ends
    it. *)
Fixpoint analyze_urls (urls : list text) (st : Z * Z * Z * list url_feat)
  : outcome (Z * Z * Z * list url_feat) :=
  match urls with
  | [] => Return st
  | url :: rest =>
      let '(n_short, n_tld, n_ip, url_features) := st in
      let url_feat := _analyze_url url in
      let url_features := url_features ++ [url_feat] in
      b <- getitem url_feat "is_shortener" ;;
      let n_short := if b : bool then n_short + 1 else n_short in
      b <- getitem url_feat "has_suspicious_tld" ;;
      let n_tld := if b : bool then n_tld + 1 else n_tld in
      b <- getitem url_feat "is_ip_address" ;;
      let n_ip := if b : bool then n_ip + 1 else n_ip in
      analyze_urls rest (n_short, n_tld, n_ip, url_features)
  end%Z.

Definition extract_features (t : text) : outcome feature_record :=
  let tokens := split t in
  let urls := extract_urls t in
  st <- analyze_urls urls (0, 0, 0, [])%Z ;;
  let '(n_short, n_tld, n_ip, url_features) := st in
  Return {|
    threat_score := keyword_score threat_keywords tokens;
    auth_score := keyword_score auth_keywords tokens;
    financial_score := keyword_score financial_keywords tokens;
    impersonation_score := keyword_score impersonation_keywords tokens;
    total_urls := Z.of_nat (List.length urls);
    suspicious_urls := n_short;
    suspicious_domains := n_tld;
    ip_address_urls := n_ip;
    url_details := url_features;
    exclamation_count := count_if (is_char "!"%char) t;
    all_caps_ratio := _calculate_caps_ratio t;
    digit_ratio := ratio (count_if isdigit t) (Z.max 1 (len t));
    special_char_ratio := ratio (count_if is_punctuation t) (Z.max 1 (len t));
    greeting_missing := _check_greeting t;
    sense_of_urgency := _check_urgency_indicators t;
    generic_greeting := _check_generic_greeting t
  |}.

End FeatureExtractor.

Import FeatureExtractor.

(** ** 3. Risk calculation *)

Module RiskCalculator.

Local Open Scope R_scope.

(** A value held by the [features] dictionary *)
Inductive value : Type :=
| VInt (z : Z)
| VFloat (q : Q)
| VList (l : list url_feat).

(** [features.items()], in insertion order *)
Definition items (f : feature_record) : list (string * value) :=
  [ ("threat_score", VFloat (threat_score f));
    ("auth_score", VFloat (auth_score f));
    ("financial_score", VFloat (financial_score f));
    ("impersonation_score", VFloat (impersonation_score f));
    ("total_urls", VInt (total_urls f));
    ("suspicious_urls", VInt (suspicious_urls f));
    ("suspicious_domains", VInt (suspicious_domains f));
    ("ip_address_urls", VInt (ip_address_urls f));
    ("url_details", VList (url_details f));
    ("exclamation_count", VInt (exclamation_count f));
    ("all_caps_ratio", VFloat (all_caps_ratio f));
    ("digit_ratio", VFloat (digit_ratio f));
    ("special_char_ratio", VFloat (special_char_ratio f));
    ("greeting_missing", VInt (greeting_missing f));
    ("sense_of_urgency", VInt (sense_of_urgency f));
    ("generic_greeting", VInt (generic_greeting f)) ]%string.

Definition weights : list (string * R) :=
  [ ("threat_score", 0.8);
    ("auth_score", 0.7);
    ("financial_score", 0.9);
    ("impersonation_score", 0.8);
    ("total_urls", 1.5);
    ("suspicious_urls", 2.5);
    ("suspicious_domains", 2.0);
    ("ip_address_urls", 3.0);
    ("exclamation_count", 0.3);
    ("all_caps_ratio", 0.5);
    ("digit_ratio", 0.4);
    ("special_char_ratio", 0.3);
    ("greeting_missing", 0.6);
    ("sense_of_urgency", 1.2);
    ("generic_greeting", 0.7) ]%string.

Definition high_risk : R := 7.5.
Definition medium_risk : R := 5.0.
Definition low_risk : R := 3.0.

Fixpoint lookup {A : Type} (k : string) (table : list (string * A)) : option A :=
  match table with
  | [] => None
  | (k', a) :: rest => if String.eqb k k' then Some a else lookup k rest
  end.

(** [isinstance(value, (int, float))], with the number *)
Definition number (v : value) : option R :=
  match v with
  | VInt z => Some (IZR z)
  | VFloat q => Some (Q2R q)
  | VList _ => None
  end.

Definition is_ratio (feature : string) : bool :=
  existsb (String.eqb feature)
          ["all_caps_ratio"; "digit_ratio"; "special_char_ratio"]%string.

(** [x ** y] on floats *)
Definition pow (x y : R) : R := Rpower x y.

Definition _logistic_scale (x : R) : R :=
  10 / (1 + pow 2.718 (-0.5 * (x - 5))).

(** The loop of [calculate_score] over [features.items()] *)
Definition base_score (f : feature_record) : R :=
  fold_left
    (fun base_score item =>
       match lookup (fst item) weights, number (snd item) with
       | Some w, Some v =>
           if is_ratio (fst item)
           then
             let scaled_value := 10 * (1 / (1 + pow 2.718 (-10 * (v - 0.3)))) in
             base_score + scaled_value * w
           else base_score + v * w
       | _, _ => base_score
       end)
    (items f) 0.

(** Rounding to the nearest integer, ties to even *)
Definition round_half_even (x : R) : Z :=
  let n := Int_part x in
  let r := x - IZR n in
  if Rlt_dec r (1 / 2) then n
  else if Rlt_dec (1 / 2) r then (n + 1)%Z
  else if Z.even n then n else (n + 1)%Z.

(** [round(x, 1)] *)
Definition round1 (x : R) : R := IZR (round_half_even (x * 10)) / 10.

Definition penalty_factors (f : feature_record) : list bool :=
  [ (0 <? suspicious_urls f)%Z;
    negb (Qle_bool (threat_score f) 2);
    negb (Qle_bool (auth_score f) 2) ].

Definition count_true (l : list bool) : nat := List.length (filter (fun b => b) l).

Definition calculate_score (f : feature_record) : R :=
  let risk_score := Rmin 10.0 (round1 (_logistic_scale (base_score f))) in
  if (2 <=? count_true (penalty_factors f))%nat
  then Rmin 10.0 (risk_score + 1.0)
  else risk_score.

End RiskCalculator.

Import RiskCalculator.

(** ** 4. Classification *)

Module PhishingDetector.

Record detected_keywords_record : Type := {
  threat_keywords_found : list string;
  auth_keywords_found : list string;
  financial_keywords_found : list string;
  impersonation_keywords_found : list string
}.

(** The dictionary [_classify] returns *)
Record classified : Type := {
  original_text : text;
  processed_text : text;
  features : feature_record;
  risk_score : R;
  classification : string;
  confidence : string;
  advice : string;
  color : string;
  severity : string;
  detected_keywords : detected_keywords_record;
  timestamp : string
}.

(** A sentence of [_explain_features], kept as its kind and the number
    it prints *)
Inductive explanation : Type :=
| ThreatIndicators (score : Q)
| AuthTerms (score : Q)
| FinancialTerms (score : Q)
| ShortenedUrls (n : Z)
| UrgencyTactics
| MissingGreeting
| ExcessiveExclamation (n : Z).

(** What [detect] returns: the three entries of [_error_response], or
    the entries of [_classify] with the two [detect] adds *)
Inductive response : Type :=
| ErrorResponse (status message time : string)
| Analysis (result : classified)
           (feature_explanations : list explanation)
           (recommendations : list string).

Definition _error_response (now : string) (message : string) : response :=
  ErrorResponse "error" message now.

Definition found (table : list (string * Q)) (tokens : list text) : list string :=
  filter (fun k => existsb (text_eqb (str k)) tokens) (map fst table).

Definition _extract_detected_keywords (t : text) : detected_keywords_record :=
  let tokens := split t in
  {| threat_keywords_found := found threat_keywords tokens;
     auth_keywords_found := found auth_keywords tokens;
     financial_keywords_found := found financial_keywords tokens;
     impersonation_keywords_found := found impersonation_keywords tokens |}.

Definition _classify (now : string) (score : R) (f : feature_record)
           (original processed : text) : classified :=
  let '(classification, confidence, advice, color, severity) :=
    if Rge_dec score high_risk then
      ("🔴 High Risk Phishing", "Very High",
       "DO NOT interact. This is highly likely to be a phishing attempt.",
       "#dc2626", "critical")%string
    else if Rge_dec score medium_risk then
      ("🟠 Suspicious Message", "Medium-High",
       "Exercise extreme caution. Verify sender through official channels.",
       "#f97316", "high")%string
    else if Rge_dec score low_risk then
      ("🟡 Moderate Risk", "Medium",
       "Be cautious. Check for unusual elements before taking action.",
       "#f59e0b", "medium")%string
    else
      ("🟢 Likely Safe", "High",
       "Message appears safe, but remain vigilant.",
       "#16a34a", "low")%string in
  {| original_text := original;
     processed_text := processed;
     features := f;
     risk_score := score;
     classification := classification;
     confidence := confidence;
     advice := advice;
     color := color;
     severity := severity;
     detected_keywords := _extract_detected_keywords processed;
     timestamp := now |}.

Definition when {A : Type} (b : bool) (a : A) : list A := if b then [a] else [].

Definition _explain_features (f : feature_record) : list explanation :=
  when (negb (Qle_bool (threat_score f) 1)) (ThreatIndicators (threat_score f))
  ++ when (negb (Qle_bool (auth_score f) 1)) (AuthTerms (auth_score f))
  ++ when (negb (Qle_bool (financial_score f) 1)) (FinancialTerms (financial_score f))
  ++ when (0 <? suspicious_urls f)%Z (ShortenedUrls (suspicious_urls f))
  ++ when (0 <? sense_of_urgency f)%Z UrgencyTactics
  ++ when (0 <? greeting_missing f)%Z MissingGreeting
  ++ when (3 <? exclamation_count f)%Z (ExcessiveExclamation (exclamation_count f)).

Definition _generate_recommendations (classification : string) : list string :=
  if contains (str "High Risk") (str classification) then
    [ "Do not click any links";
      "Do not download attachments";
      "Do not reply with personal information";
      "Report to your IT security team";
      "Delete the message after reporting" ]%string
  else if contains (str "Suspicious") (str classification) then
    [ "Verify sender's email address carefully";
      "Contact the organization through official channels";
      "Hover over links to preview destination URLs";
      "Check for spelling and grammar errors";
      "Look for generic greetings" ]%string
  else
    [ "Verify sender identity if unsure";
      "Check URLs before clicking";
      "Enable two-factor authentication";
      "Keep security software updated";
      "Regularly change passwords" ]%string.

(** The components [detect] invokes, recorded in order *)
Inductive component : Type :=
| Preprocess_text
| Extract_features
| Calculate_score
| Classify
| Explain_features
| Generate_recommendations
| Error_response.

Definition traced (A : Type) : Type := list component * outcome A.

Definition invoke {A : Type} (c : component) (r : outcome A) : traced A := ([c], r).

Definition and_then {A B : Type} (m : traced A) (k : A -> traced B) : traced B :=
  match m with
  | (t, Return a) => let (t', r) := k a in (t ++ t', r)
  | (t, Raise e) => (t, Raise e)
  end.

Notation "x <~ m ;; k" := (and_then m (fun x => k))
  (at level 61, m at next level, right associativity).

Definition detect (now : string) (t : text) : traced response :=
  if negb (truthy t) || negb (truthy (strip t))
  then invoke Error_response
         (Return (_error_response now "Please enter a message to analyze"))
  else
    processed_text <~ invoke Preprocess_text (Return (preprocess_text t)) ;;
    features <~ invoke Extract_features (extract_features processed_text) ;;
    risk_score <~ invoke Calculate_score (Return (calculate_score features)) ;;
    result <~ invoke Classify
                (Return (_classify now risk_score features t processed_text)) ;;
    explanations <~ invoke Explain_features (Return (_explain_features features)) ;;
    recommendations <~ invoke Generate_recommendations
                (Return (_generate_recommendations (classification result))) ;;
    ([], Return (Analysis result explanations recommendations)).

End PhishingDetector.

Import PhishingDetector.

(** ** 5. Example messages *)

Definition banking_text : text := str
  "URGENT: Your bank account has been SUSPENDED due to suspicious activity. Click http://bit.ly/secure-bank-login to VERIFY your identity immediately or your account will be TERMINATED within 24 hours!".

(** ** The severity bands of the classifier's table *)

Inductive band : Type := critical | high | medium | low.

Definition band_name (b : band) : string :=
  match b with
  | critical => "critical"
  | high => "high"
  | medium => "medium"
  | low => "low"
  end.

(** The score ranges as the table gives them *)
Definition band_applies (b : band) (score : R) : Prop :=
  match b with
  | critical => (7.5 <= score)%R
  | high => (5.0 <= score < 7.5)%R
  | medium => (3.0 <= score < 5.0)%R
  | low => (score < 3.0)%R
  end.

(** The value [risk_score] holds before the multi-factor bonus: the
    compressed, rounded and clamped score *)
Definition compressed_score (f : feature_record) : R :=
  Rmin 10.0 (round1 (_logistic_scale (base_score f))).

(** The three conditions of the multi-factor penalty, and "at least
    two of them hold" *)
Definition has_suspicious_url (f : feature_record) : Prop :=
  (0 < suspicious_urls f)%Z.
Definition high_threat (f : feature_record) : Prop := (2 < threat_score f)%Q.
Definition high_auth (f : feature_record) : Prop := (2 < auth_score f)%Q.

Definition two_factors (f : feature_record) : Prop :=
  (has_suspicious_url f /\ high_threat f)
  \/ (has_suspicious_url f /\ high_auth f)
  \/ (high_threat f /\ high_auth f).

(** The record with [suspicious_urls] replaced and every other entry
    kept *)
Definition with_suspicious_urls (n : Z) (f : feature_record) : feature_record :=
  {| threat_score := threat_score f;
     auth_score := auth_score f;
     financial_score := financial_score f;
     impersonation_score := impersonation_score f;
     total_urls := total_urls f;
     suspicious_urls := n;
     suspicious_domains := suspicious_domains f;
     ip_address_urls := ip_address_urls f;
     url_details := url_details f;
     exclamation_count := exclamation_count f;
     all_caps_ratio := all_caps_ratio f;
     digit_ratio := digit_ratio f;
     special_char_ratio := special_char_ratio f;
     greeting_missing := greeting_missing f;
     sense_of_urgency := sense_of_urgency f;
     generic_greeting := generic_greeting f |}.

(** A record with every count, score and ratio at zero *)
Definition zero_features : feature_record :=
  {| threat_score := 0; auth_score := 0; financial_score := 0;
     impersonation_score := 0; total_urls := 0; suspicious_urls := 0;
     suspicious_domains := 0; ip_address_urls := 0; url_details := [];
     exclamation_count := 0; all_caps_ratio := 0; digit_ratio := 0;
     special_char_ratio := 0; greeting_missing := 0; sense_of_urgency := 0;
     generic_greeting := 0 |}.

(** The feature record of a text, when extraction returns one *)
Definition features_of (t : text) : feature_record :=
  match extract_features (preprocess_text t) with
  | Return f => f
  | Raise _ => zero_features
  end.

Definition banking_features : feature_record :=
  Eval vm_compute in features_of banking_text.

Definition meeting_text : text := str
  "Hi John, just confirming our meeting tomorrow at 2:00 PM in Conference Room B. Please bring the quarterly reports.".

Definition meeting_features : feature_record :=
  Eval vm_compute in features_of meeting_text.

(** The risk score a response carries, if any *)
Definition risk_score_of (r : response) : option R :=
  match r with
  | ErrorResponse _ _ _ => None
  | Analysis result _ _ => Some (risk_score result)
  end.

Fixpoint last_char (s : text) : option ascii :=
  match s with
  | [] => None
  | [c] => Some c
  | _ :: s' => last_char s'
  end.

(** A URL that [urlparse] rejects *)
Definition parse_fails (url : text) : Prop :=
  _analyze_url url = Degraded url "parse_failed".

Definition broken_url_text : text := str "Visit http://[::1 now".

Definition shouting_text : text := str "VERIFY NOW".

Definition shouting_features : feature_record :=
  Eval vm_compute in features_of shouting_text.

(** ** Runs of marks *)

(** The number of maximal runs of characters of [[!?.]] that contain an
    exclamation mark; [seen] tells whether the run being read has shown
    one. *)
Fixpoint bang_runs_from (seen : bool) (s : text) : nat :=
  match s with
  | [] => if seen then 1 else 0
  | c :: s' =>
      if is_mark c then bang_runs_from (seen || is_char "!"%char c) s'
      else (if seen then 1 else 0) + bang_runs_from false s'
  end.

Definition bang_runs (s : text) : nat := bang_runs_from false s.

Definition count_bang (s : text) : nat :=
  List.length (filter (is_char "!"%char) s).

(** No mark is followed by a mark. *)
Fixpoint no_adjacent_marks (s : text) : bool :=
  match s with
  | [] => true
  | c :: s' => negb (is_mark c && head_is is_mark s') && no_adjacent_marks s'
  end.

(** The text [preprocess_text] holds after percent-decoding, before it
    collapses the marks *)
Definition percent_decoded (t : text) : text :=
  unquote (sub_whitespace (strip (lower t))).

(** The bound as the claim words it: the count [detect] reports is at
    most the number of runs with an exclamation mark in the original
    input. *)
Definition exclamations_bounded_by_input_runs (now : string) (t : text) : Prop :=
  forall result explanations recommendations,
    snd (detect now t) = Return (Analysis result explanations recommendations) ->
    (exclamation_count (features result) <= Z.of_nat (bang_runs t))%Z.

Definition idempotent_at (t : text) : Prop :=
  preprocess_text (preprocess_text t) = preprocess_text t.

Definition hello_text : text := str "Hello!!!".

Definition hello_features : feature_record :=
  Eval vm_compute in features_of hello_text.

Definition encoded_bang_text : text := str "act now%21".

Definition encoded_bang_features : feature_record :=
  Eval vm_compute in features_of encoded_bang_text.

Definition a_time : string := "2024-01-01T00:00:00".

(** ** The shape of normalized text *)

Definition nonspace (c : ascii) : bool := negb (isspace c).

(** The last character is no whitespace. *)
Fixpoint ends_clean (s : text) : bool :=
  match s with
  | [] => true
  | c :: s' => (nonspace c || truthy s') && ends_clean s'
  end.

(** Every whitespace character is a space with a character that is no
    whitespace behind it. *)
Fixpoint single_spaced (s : text) : bool :=
  match s with
  | [] => true
  | c :: s' =>
      (nonspace c || (is_char " "%char c && head_is nonspace s'))
      && single_spaced s'
  end.

Definition is_lowered (c : ascii) : bool := Ascii.eqb (lower_char c) c.

Definition not_percent (c : ascii) : bool := negb (is_char "%"%char c).

(** The normalized form of a text without a percent sign *)
Definition collapsed (t : text) : text :=
  sub_marks (sub_whitespace (strip (lower t))).

Definition double_encoded_text : text := str "%2520".

(** ** Entries of [url_details] *)

Definition is_analysed (u : url_feat) : bool :=
  match u with
  | Analysed _ => true
  | Degraded _ _ => false
  end.

(** [u["original"]], the one entry both shapes of the dictionary hold *)
Definition original_of (u : url_feat) : text :=
  match u with
  | Analysed i => original i
  | Degraded o _ => o
  end.

(** [urlparse] accepts the URL. *)
Definition parses (url : text) : bool := is_analysed (_analyze_url url).

Definition in_unit_interval (q : Q) : Prop := 0 <= q /\ q <= 1.

Definition is_flag (z : Z) : Prop := z = 0%Z \/ z = 1%Z.





Definition positive_weights (table : list (string * Q)) : Prop :=
  Forall (fun kw => 0 < snd kw) table.

(** Every number of [g] is at least the number [f] holds for the same
    feature. *)
Definition features_le (f g : feature_record) : Prop :=
  threat_score f <= threat_score g
  /\ auth_score f <= auth_score g
  /\ financial_score f <= financial_score g
  /\ impersonation_score f <= impersonation_score g
  /\ (total_urls f <= total_urls g)%Z
  /\ (suspicious_urls f <= suspicious_urls g)%Z
  /\ (suspicious_domains f <= suspicious_domains g)%Z
  /\ (ip_address_urls f <= ip_address_urls g)%Z
  /\ (exclamation_count f <= exclamation_count g)%Z
  /\ all_caps_ratio f <= all_caps_ratio g
  /\ digit_ratio f <= digit_ratio g
  /\ special_char_ratio f <= special_char_ratio g
  /\ (greeting_missing f <= greeting_missing g)%Z
  /\ (sense_of_urgency f <= sense_of_urgency g)%Z
  /\ (generic_greeting f <= generic_greeting g)%Z.

(** The bands in rising order of severity *)
Definition band_rank (b : band) : nat :=
  match b with
  | low => 0
  | medium => 1
  | high => 2
  | critical => 3
  end.

(** * Properties *)

(** ** The risk score *)

Section Rounding.

Local Open Scope R_scope.

Lemma Int_part_monotone (x y : R) : x <= y -> (Int_part x <= Int_part y)%Z.
Proof.
  intro Hxy.
  destruct (base_Int_part x) as [Hx _].
  destruct (base_Int_part y) as [_ Hy].
  apply Z.lt_succ_r, lt_IZR.
  rewrite succ_IZR. lra.
Qed.

Lemma Int_part_IZR (n : Z) : Int_part (IZR n) = n.
Proof.
  destruct (base_Int_part (IZR n)) as [Hlo Hhi].
  apply le_IZR in Hlo.
  assert (n < Int_part (IZR n) + 1)%Z.
  { apply lt_IZR. rewrite plus_IZR. simpl. lra. }
  lia.
Qed.

Lemma round_half_even_choice (x : R) :
  round_half_even x = Int_part x \/ round_half_even x = (Int_part x + 1)%Z.
Proof.
  unfold round_half_even.
  destruct (Rlt_dec _ _); [now left|].
  destruct (Rlt_dec _ _); [now right|].
  destruct (Z.even _); [now left | now right].
Qed.

Lemma round_half_even_monotone (x y : R) :
  x <= y -> (round_half_even x <= round_half_even y)%Z.
Proof.
  intro Hxy.
  pose proof (Int_part_monotone x y Hxy) as Hn.
  destruct (Z.eq_dec (Int_part x) (Int_part y)) as [Heq|Hne].
  - unfold round_half_even. rewrite <- Heq.
    repeat match goal with
           | |- context [Rlt_dec ?a ?b] => destruct (Rlt_dec a b)
           end; try lia; try (exfalso; lra).
    all: destruct (Z.even _); lia.
  - destruct (round_half_even_choice x), (round_half_even_choice y); lia.
Qed.

Lemma round_half_even_IZR (n : Z) : round_half_even (IZR n) = n.
Proof.
  unfold round_half_even. rewrite Int_part_IZR.
  destruct (Rlt_dec _ _) as [_|H]; [reflexivity | exfalso; lra].
Qed.

Lemma round1_monotone (x y : R) : x <= y -> round1 x <= round1 y.
Proof.
  intro Hxy. unfold round1.
  assert (H : (round_half_even (x * 10) <= round_half_even (y * 10))%Z)
    by (apply round_half_even_monotone; lra).
  apply IZR_le in H. lra.
Qed.

Lemma round1_tenths (n : Z) : round1 (IZR n / 10) = IZR n / 10.
Proof.
  unfold round1. replace (IZR n / 10 * 10) with (IZR n) by lra.
  now rewrite round_half_even_IZR.
Qed.

Lemma round1_nonneg (x : R) : 0 <= x -> 0 <= round1 x.
Proof.
  intro Hx. replace 0 with (IZR 0 / 10) by lra.
  rewrite <- (round1_tenths 0). apply round1_monotone. lra.
Qed.

End Rounding.

Section Score.

Local Open Scope R_scope.

Lemma pow_positive (x y : R) : 0 < pow x y.
Proof. unfold pow, Rpower. apply exp_pos. Qed.

Lemma pow_antitone_exponent (y1 y2 : R) :
  y1 <= y2 -> pow 2.718 y1 <= pow 2.718 y2.
Proof.
  intro H. unfold pow. apply Rle_Rpower; [lra | exact H].
Qed.

Lemma _logistic_scale_range (x : R) : 0 < _logistic_scale x < 10.
Proof.
  unfold _logistic_scale.
  pose proof (pow_positive 2.718 (-0.5 * (x - 5))) as Hp.
  set (p := pow _ _) in *.
  split.
  - apply Rdiv_lt_0_compat; lra.
  - apply Rmult_lt_reg_r with (1 + p); [lra|].
    unfold Rdiv. rewrite Rmult_assoc, Rinv_l by lra. lra.
Qed.

Lemma _logistic_scale_monotone (x y : R) :
  x <= y -> _logistic_scale x <= _logistic_scale y.
Proof.
  intro Hxy. unfold _logistic_scale.
  pose proof (pow_positive 2.718 (-0.5 * (x - 5))) as Hpx.
  pose proof (pow_positive 2.718 (-0.5 * (y - 5))) as Hpy.
  assert (Hle : pow 2.718 (-0.5 * (y - 5)) <= pow 2.718 (-0.5 * (x - 5)))
    by (apply pow_antitone_exponent; lra).
  set (px := pow _ (-0.5 * (x - 5))) in *.
  set (py := pow _ (-0.5 * (y - 5))) in *.
  unfold Rdiv. apply Rmult_le_compat_l; [lra|].
  apply Rinv_le_contravar; lra.
Qed.

Lemma compressed_score_range (f : feature_record) :
  0 <= compressed_score f <= 10.
Proof.
  unfold compressed_score.
  pose proof (_logistic_scale_range (base_score f)) as [Hlo _].
  assert (H0 : 0 <= round1 (_logistic_scale (base_score f)))
    by (apply round1_nonneg; lra).
  split.
  - apply Rmin_glb; lra.
  - eapply Rle_trans; [apply Rmin_l | lra].
Qed.

Lemma calculate_score_unfold (f : feature_record) :
  calculate_score f =
  if (2 <=? count_true (penalty_factors f))%nat
  then Rmin 10.0 (compressed_score f + 1.0)
  else compressed_score f.
Proof. reflexivity. Qed.

Lemma calculate_score_range (f : feature_record) :
  0 <= calculate_score f <= 10.
Proof.
  rewrite calculate_score_unfold.
  pose proof (compressed_score_range f) as [Hlo Hhi].
  destruct (_ <=? _)%nat; [|lra].
  split.
  - apply Rmin_glb; lra.
  - eapply Rle_trans; [apply Rmin_l | lra].
Qed.

End Score.

Section ScoreClaims.

Local Open Scope R_scope.

Lemma base_score_sum (f : feature_record) :
  base_score f =
  0 + Q2R (threat_score f) * 0.8 + Q2R (auth_score f) * 0.7 +
  Q2R (financial_score f) * 0.9 + Q2R (impersonation_score f) * 0.8 +
  IZR (total_urls f) * 1.5 + IZR (suspicious_urls f) * 2.5 +
  IZR (suspicious_domains f) * 2.0 + IZR (ip_address_urls f) * 3.0 +
  IZR (exclamation_count f) * 0.3 +
  10 * (1 / (1 + pow 2.718 (-10 * (Q2R (all_caps_ratio f) - 0.3)))) * 0.5 +
  10 * (1 / (1 + pow 2.718 (-10 * (Q2R (digit_ratio f) - 0.3)))) * 0.4 +
  10 * (1 / (1 + pow 2.718 (-10 * (Q2R (special_char_ratio f) - 0.3)))) * 0.3 +
  IZR (greeting_missing f) * 0.6 + IZR (sense_of_urgency f) * 1.2 +
  IZR (generic_greeting f) * 0.7.
Proof.
  cbv - [Rplus Rmult Rdiv Rinv Rminus Ropp IZR Q2R pow
         threat_score auth_score financial_score impersonation_score
         total_urls suspicious_urls suspicious_domains ip_address_urls
         exclamation_count all_caps_ratio digit_ratio special_char_ratio
         greeting_missing sense_of_urgency generic_greeting].
  reflexivity.
Qed.

Lemma band_exactly_one (s : R) : exists! b, band_applies b s.
Proof.
  destruct (Rle_dec 7.5 s); [exists critical|].
  2: destruct (Rle_dec 5.0 s); [exists high|].
  3: destruct (Rle_dec 3.0 s); [exists medium | exists low].
  all: split; [simpl; lra | intros [] H; simpl in H; try reflexivity; exfalso; lra].
Qed.

Lemma _classify_severity (now : string) (s : R) (f : feature_record)
      (original processed : text) (b : band) :
  band_applies b s <-> severity (_classify now s f original processed) = band_name b.
Proof.
  unfold _classify, high_risk, medium_risk, low_risk.
  destruct (Rge_dec s 7.5); [|destruct (Rge_dec s 5.0); [|destruct (Rge_dec s 3.0)]];
    cbn [severity]; destruct b; simpl; split; intro H;
    try reflexivity; try discriminate; try lra.
Qed.

Lemma penalty_count_two_factors (f : feature_record) :
  (2 <=? count_true (penalty_factors f))%nat = true <-> two_factors f.
Proof.
  unfold two_factors, has_suspicious_url, high_threat, high_auth, penalty_factors.
  assert (HQ : forall q, negb (Qle_bool q 2) = true <-> (2 < q)%Q).
  { intro q. rewrite negb_true_iff, <- not_true_iff_false, Qle_bool_iff.
    split; [apply Qnot_le_lt | apply Qlt_not_le]. }
  rewrite <- !HQ, <- Z.ltb_lt.
  destruct (0 <? suspicious_urls f)%Z,
           (negb (Qle_bool (threat_score f) 2)),
           (negb (Qle_bool (auth_score f) 2)); cbn; intuition congruence.
Qed.

(** C1.  For every text, the score of the features extracted from its
    normalized form lies in [0, 10]; on [0, 10] exactly one severity
    band applies to a score; and the severity the classifier assigns is
    the band that applies. *)
Theorem score_range_and_unique_band :
  forall (now : string) (t : text) (f : feature_record),
    extract_features (preprocess_text t) = Return f ->
    0 <= calculate_score f <= 10
    /\ (forall s, 0 <= s <= 10 -> exists! b, band_applies b s)
    /\ (forall b, band_applies b (calculate_score f) <->
                  severity (_classify now (calculate_score f) f t (preprocess_text t))
                  = band_name b).
Proof.
  intros now t f _. split; [apply calculate_score_range|].
  split; [intros s _; apply band_exactly_one|].
  intro b. apply _classify_severity.
Qed.

Lemma score_range_and_unique_band_witness :
  0 <= calculate_score meeting_features <= 10.
Proof.
  apply (score_range_and_unique_band "2024-01-01T00:00:00" meeting_text
                                     meeting_features).
  vm_compute. reflexivity.
Defined.

(** C3.  When at least two of [suspicious_urls > 0], [threat_score > 2]
    and [auth_score > 2] hold, the score is the compressed and rounded
    score plus 1.0, clamped again to at most 10.0; when fewer than two
    hold, it is the compressed and rounded score with no bonus. *)
Theorem multi_factor_bonus :
  forall f : feature_record,
    (two_factors f -> calculate_score f = Rmin 10.0 (compressed_score f + 1.0))
    /\ (~ two_factors f -> calculate_score f = compressed_score f)
    /\ calculate_score f <= 10.0.
Proof.
  intro f. rewrite calculate_score_unfold.
  pose proof (penalty_count_two_factors f) as Hiff.
  pose proof (calculate_score_range f) as [_ Hhi].
  rewrite calculate_score_unfold in Hhi.
  destruct (2 <=? count_true (penalty_factors f))%nat.
  - split; [reflexivity|]. split; [|lra].
    intro Hn. exfalso. apply Hn. now apply Hiff.
  - split; [|split; [reflexivity | lra]].
    intro Ht. apply Hiff in Ht. discriminate.
Qed.

Lemma multi_factor_bonus_witness :
  calculate_score banking_features = Rmin 10.0 (compressed_score banking_features + 1.0).
Proof.
  apply (multi_factor_bonus banking_features).
  left. split; vm_compute; reflexivity.
Defined.

(** C6.  Raising [suspicious_urls] from 0 to 1 with every other feature
    unchanged never lowers the score. *)
Theorem suspicious_url_monotone :
  forall f : feature_record,
    suspicious_urls f = 0%Z ->
    calculate_score f <= calculate_score (with_suspicious_urls 1 f).
Proof.
  intros f H0.
  assert (Hbase : base_score f <= base_score (with_suspicious_urls 1 f)).
  { rewrite !base_score_sum. cbn [with_suspicious_urls threat_score auth_score
      financial_score impersonation_score total_urls suspicious_urls
      suspicious_domains ip_address_urls exclamation_count all_caps_ratio
      digit_ratio special_char_ratio greeting_missing sense_of_urgency
      generic_greeting]. rewrite H0. lra. }
  assert (Hc : compressed_score f <= compressed_score (with_suspicious_urls 1 f)).
  { unfold compressed_score. apply Rle_min_compat_l.
    apply round1_monotone, _logistic_scale_monotone, Hbase. }
  pose proof (compressed_score_range f) as [_ Hf].
  pose proof (compressed_score_range (with_suspicious_urls 1 f)) as [_ Hf'].
  rewrite !calculate_score_unfold.
  destruct (2 <=? count_true (penalty_factors f))%nat eqn:E.
  - assert (E' : (2 <=? count_true (penalty_factors (with_suspicious_urls 1 f)))%nat = true).
    { apply penalty_count_two_factors. apply penalty_count_two_factors in E.
      unfold two_factors, has_suspicious_url, high_threat, high_auth in *.
      cbn [with_suspicious_urls suspicious_urls threat_score auth_score].
      rewrite H0 in E. intuition lia. }
    rewrite E'. apply Rle_min_compat_l. lra.
  - destruct (2 <=? count_true (penalty_factors (with_suspicious_urls 1 f)))%nat;
      [|exact Hc].
    apply Rmin_glb; lra.
Qed.

Lemma suspicious_url_monotone_witness :
  calculate_score meeting_features
  <= calculate_score (with_suspicious_urls 1 meeting_features).
Proof.
  apply (suspicious_url_monotone meeting_features). reflexivity.
Defined.

End ScoreClaims.

(** ** The detector's control flow *)

Lemma lstrip_all (p : ascii -> bool) (s : text) :
  forallb p s = true -> lstrip p s = [].
Proof.
  induction s as [|c s IH]; simpl; [reflexivity|].
  intro H. apply andb_true_iff in H as [Hc Hs]. rewrite Hc. now apply IH.
Qed.

Lemma detect_returns (now : string) (t : text) (f : feature_record) :
  truthy (strip t) = true ->
  extract_features (preprocess_text t) = Return f ->
  detect now t =
  ([Preprocess_text; Extract_features; Calculate_score; Classify;
    Explain_features; Generate_recommendations],
   Return (Analysis
             (_classify now (calculate_score f) f t (preprocess_text t))
             (_explain_features f)
             (_generate_recommendations
                (classification
                   (_classify now (calculate_score f) f t (preprocess_text t)))))).
Proof.
  intros Hs He. unfold detect.
  assert (Ht : truthy t = true).
  { destruct t; [discriminate Hs | reflexivity]. }
  rewrite Ht, Hs. cbn [negb orb].
  unfold and_then, invoke. rewrite He. reflexivity.
Qed.

Lemma detect_raises (now : string) (t : text) (e : exn) :
  truthy (strip t) = true ->
  extract_features (preprocess_text t) = Raise e ->
  detect now t = ([Preprocess_text; Extract_features], Raise e).
Proof.
  intros Hs He. unfold detect.
  assert (Ht : truthy t = true).
  { destruct t; [discriminate Hs | reflexivity]. }
  rewrite Ht, Hs. cbn [negb orb].
  unfold and_then, invoke. rewrite He. reflexivity.
Qed.

Lemma _classify_fields (now : string) (s : R) (f : feature_record)
      (original processed : text) :
  let result := _classify now s f original processed in
  original_text result = original
  /\ processed_text result = processed
  /\ features result = f
  /\ risk_score result = s
  /\ timestamp result = now.
Proof.
  unfold _classify.
  destruct (Rge_dec s high_risk);
    [|destruct (Rge_dec s medium_risk); [|destruct (Rge_dec s low_risk)]];
    cbn; repeat split.
Qed.

(** C2.  On the empty string and on a string of whitespace only,
    [detect] returns the error response (status [error], the message,
    the timestamp); the only component it invokes is [_error_response],
    so neither extraction nor scoring runs, and the response carries no
    risk score. *)
Theorem blank_input_error_response :
  forall (now : string) (t : text),
    forallb isspace t = true ->
    detect now t =
    ([Error_response],
     Return (ErrorResponse "error" "Please enter a message to analyze" now))
    /\ ~ In Extract_features (fst (detect now t))
    /\ ~ In Calculate_score (fst (detect now t))
    /\ (forall r, snd (detect now t) = Return r -> risk_score_of r = None).
Proof.
  intros now t Hws.
  assert (Hd : detect now t =
               ([Error_response],
                Return (ErrorResponse "error" "Please enter a message to analyze" now))).
  { unfold detect, strip, strip_by. rewrite (lstrip_all isspace t Hws).
    cbn [rstrip truthy negb]. rewrite orb_true_r. reflexivity. }
  rewrite Hd. cbn [fst snd]. repeat split.
  - intros [H|[]]. discriminate H.
  - intros [H|[]]. discriminate H.
  - intros r H. injection H as <-. reflexivity.
Qed.

Lemma blank_input_error_response_witness :
  detect "2024-01-01T00:00:00" (str "   ") =
  ([Error_response],
   Return (ErrorResponse "error" "Please enter a message to analyze"
                         "2024-01-01T00:00:00")).
Proof.
  apply (blank_input_error_response "2024-01-01T00:00:00" (str "   ")).
  vm_compute. reflexivity.
Defined.

(** ** URLs *)

Lemma rstrip_last (p : ascii -> bool) (s : text) (c : ascii) :
  last_char (rstrip p s) = Some c -> p c = false.
Proof.
  induction s as [|a s IH]; cbn [rstrip]; [discriminate|].
  destruct (rstrip p s) as [|b r] eqn:E.
  - destruct (p a) eqn:Ea; cbn; [discriminate|].
    intro H. injection H as <-. exact Ea.
  - exact IH.
Qed.

Lemma lstrip_head (p : ascii -> bool) (s : text) : head_is p (lstrip p s) = false.
Proof.
  induction s as [|a s IH]; cbn; [reflexivity|].
  destruct (p a) eqn:Ea; [exact IH | cbn; exact Ea].
Qed.

(** C8.  On ["Visit http://bit.ly/abc now"] the extractor returns the
    one URL ["http://bit.ly/abc"], without the prose before it and
    without the word after it; and no URL it ever returns ends in one
    of the characters it strips. *)
Theorem extract_urls_example :
  extract_urls (str "Visit http://bit.ly/abc now") = [str "http://bit.ly/abc"]
  /\ (forall (t u : text) (c : ascii),
         In u (extract_urls t) -> last_char u = Some c ->
         is_strip_char c = false).
Proof.
  split; [vm_compute; reflexivity|].
  intros t u c Hin Hlast. unfold extract_urls in Hin.
  apply in_map_iff in Hin as [m [<- _]].
  unfold strip_by in Hlast. eapply rstrip_last, Hlast.
Qed.

Lemma extract_urls_example_witness :
  is_strip_char "c"%char = false.
Proof.
  apply (proj2 extract_urls_example
               (str "See (http://bit.ly/abc).") (str "http://bit.ly/abc") "c"%char).
  - vm_compute. left. reflexivity.
  - reflexivity.
Defined.

Lemma analyze_urls_degraded (urls : list text) :
  Exists parse_fails urls ->
  forall st, analyze_urls urls st = Raise (KeyError "is_shortener").
Proof.
  induction urls as [|url rest IH]; intros HE st; [inversion HE|].
  destruct st as [[[n_short n_tld] n_ip] url_features].
  cbn [analyze_urls].
  destruct (_analyze_url url) as [i|o e] eqn:E.
  - cbn. apply IH. inversion HE as [? ? Hhere|? ? Hthere]; subst; [|exact Hthere].
    unfold parse_fails in Hhere. congruence.
  - reflexivity.
Qed.

Lemma extract_features_degraded (t : text) :
  Exists parse_fails (extract_urls t) ->
  extract_features t = Raise (KeyError "is_shortener").
Proof.
  intro HE. unfold extract_features.
  rewrite (analyze_urls_degraded _ HE). reflexivity.
Qed.

(** C7.  The URL [http://[::1] does not parse, and [_analyze_url]
    returns the degraded record for it; [extract_features] then reads
    the entry [is_shortener], which that record lacks, and raises
    [KeyError]: no feature record is produced, and [detect] raises. *)
Theorem unparsable_url_aborts_extraction :
  extract_urls (preprocess_text broken_url_text) = [str "http://[::1"]
  /\ _analyze_url (str "http://[::1") = Degraded (str "http://[::1") "parse_failed"
  /\ extract_features (preprocess_text broken_url_text)
     = Raise (KeyError "is_shortener")
  /\ (forall now, detect now broken_url_text
                  = ([Preprocess_text; Extract_features],
                     Raise (KeyError "is_shortener"))).
Proof.
  assert (He : extract_features (preprocess_text broken_url_text)
               = Raise (KeyError "is_shortener")) by (vm_compute; reflexivity).
  split; [vm_compute; reflexivity|].
  split; [vm_compute; reflexivity|].
  split; [exact He|].
  intro now. apply detect_raises; [vm_compute; reflexivity | exact He].
Qed.

(** ** The capital-letter ratio *)

(** C5.  For the input ["VERIFY NOW"] every letter of the original text
    is a capital, so the ratio over the original text is 1; the record
    [detect] returns holds 0, the ratio of the lowercased text that
    [extract_features] was handed. *)
Theorem caps_ratio_of_lowered_text :
  forall now : string,
  exists result explanations recommendations,
    snd (detect now shouting_text)
    = Return (Analysis result explanations recommendations)
    /\ original_text result = shouting_text
    /\ all_caps_ratio (features result) == 0
    /\ _calculate_caps_ratio (original_text result) == 1
    /\ all_caps_ratio (features result)
       = _calculate_caps_ratio (processed_text result).
Proof.
  intro now.
  assert (He : extract_features (preprocess_text shouting_text)
               = Return shouting_features) by (vm_compute; reflexivity).
  rewrite (detect_returns now shouting_text shouting_features
             ltac:(vm_compute; reflexivity) He).
  do 3 eexists. split; [reflexivity|].
  destruct (_classify_fields now (calculate_score shouting_features)
              shouting_features shouting_text (preprocess_text shouting_text))
    as (Ho & Hp & Hf & _).
  rewrite Ho, Hp, Hf.
  repeat split; vm_compute; reflexivity.
Qed.

(** ** The banking example *)

Section Banking.

Local Open Scope R_scope.

Lemma pow_minus_one : pow 2.718 (-1) = / 2.718.
Proof.
  unfold pow. replace (-1) with (Ropp 1) by lra.
  rewrite Rpower_Ropp, Rpower_1 by lra. reflexivity.
Qed.

Lemma _logistic_scale_above_7 (x : R) : 7 <= x -> 7 <= _logistic_scale x.
Proof.
  intro Hx. unfold _logistic_scale.
  pose proof (pow_positive 2.718 (-0.5 * (x - 5))) as Hp.
  assert (Hle : pow 2.718 (-0.5 * (x - 5)) <= pow 2.718 (-1))
    by (apply pow_antitone_exponent; lra).
  rewrite pow_minus_one in Hle.
  set (p := pow _ _) in *.
  apply Rmult_le_reg_r with (1 + p); [lra|].
  unfold Rdiv. rewrite Rmult_assoc, Rinv_l by lra. lra.
Qed.

Lemma scaled_ratio_positive (v w : R) :
  0 < w -> 0 < 10 * (1 / (1 + pow 2.718 (-10 * (v - 0.3)))) * w.
Proof.
  intro Hw.
  pose proof (pow_positive 2.718 (-10 * (v - 0.3))) as Hp.
  set (p := pow _ _) in *.
  apply Rmult_lt_0_compat; [|exact Hw].
  apply Rmult_lt_0_compat; [lra|].
  apply Rdiv_lt_0_compat; lra.
Qed.

Lemma banking_base_score : 7 <= base_score banking_features.
Proof.
  rewrite base_score_sum. unfold banking_features.
  cbn [threat_score auth_score financial_score impersonation_score
       total_urls suspicious_urls suspicious_domains ip_address_urls
       exclamation_count all_caps_ratio digit_ratio special_char_ratio
       greeting_missing sense_of_urgency generic_greeting].
  pose proof (scaled_ratio_positive (Q2R (0 # 160)) 0.5 ltac:(lra)).
  pose proof (scaled_ratio_positive (Q2R (2 # 198)) 0.4 ltac:(lra)).
  pose proof (scaled_ratio_positive (Q2R (10 # 198)) 0.3 ltac:(lra)).
  lra.
Qed.

Lemma banking_score : 7.5 <= calculate_score banking_features.
Proof.
  rewrite calculate_score_unfold.
  assert (H2 : (2 <=? count_true (penalty_factors banking_features))%nat = true)
    by (vm_compute; reflexivity).
  rewrite H2.
  assert (Hc : 7 <= compressed_score banking_features).
  { unfold compressed_score. apply Rmin_glb; [lra|].
    replace 7 with (IZR 70 / 10) by lra.
    rewrite <- (round1_tenths 70). apply round1_monotone.
    replace (IZR 70 / 10) with 7 by lra.
    apply _logistic_scale_above_7, banking_base_score. }
  apply Rmin_glb; lra.
Qed.

(** C9.  On the banking example [detect] returns an analysis whose
    severity is [critical] and whose feature record has one URL, one
    suspicious URL and the urgency flag set. *)
Theorem banking_example_critical :
  forall now : string,
  exists result explanations recommendations,
    detect now banking_text
    = ([Preprocess_text; Extract_features; Calculate_score; Classify;
        Explain_features; Generate_recommendations],
       Return (Analysis result explanations recommendations))
    /\ severity result = "critical"%string
    /\ total_urls (features result) = 1%Z
    /\ suspicious_urls (features result) = 1%Z
    /\ sense_of_urgency (features result) = 1%Z.
Proof.
  intro now.
  assert (He : extract_features (preprocess_text banking_text)
               = Return banking_features) by (vm_compute; reflexivity).
  rewrite (detect_returns now banking_text banking_features
             ltac:(vm_compute; reflexivity) He).
  do 3 eexists. split; [reflexivity|].
  split.
  - apply (_classify_severity now (calculate_score banking_features)
             banking_features banking_text (preprocess_text banking_text)
             critical).
    exact banking_score.
  - destruct (_classify_fields now (calculate_score banking_features)
                banking_features banking_text (preprocess_text banking_text))
      as (_ & _ & Hf & _).
    rewrite Hf. repeat split.
Qed.

End Banking.

(** ** Character facts *)

Ltac each_char c := destruct c as [[] [] [] [] [] [] [] []].

Lemma space_not_mark (c : ascii) : isspace c = true -> is_mark c = false.
Proof. each_char c; vm_compute; congruence. Qed.

Lemma mark_not_space (c : ascii) : is_mark c = true -> isspace c = false.
Proof. each_char c; vm_compute; congruence. Qed.

Lemma bang_is_mark (c : ascii) : is_char "!"%char c = true -> is_mark c = true.
Proof. each_char c; vm_compute; congruence. Qed.

Lemma lower_char_mark (c : ascii) : is_mark (lower_char c) = is_mark c.
Proof. each_char c; reflexivity. Qed.

Lemma lower_char_bang (c : ascii) :
  is_char "!"%char (lower_char c) = is_char "!"%char c.
Proof. each_char c; reflexivity. Qed.

Lemma lower_char_percent (c : ascii) :
  is_char "%"%char (lower_char c) = is_char "%"%char c.
Proof. each_char c; reflexivity. Qed.

Lemma lower_char_idempotent (c : ascii) : lower_char (lower_char c) = lower_char c.
Proof. each_char c; reflexivity. Qed.

Lemma lower_char_space (c : ascii) : isspace (lower_char c) = isspace c.
Proof. each_char c; reflexivity. Qed.

(** ** Exclamation marks *)

Lemma head_is_mark_not_space (s : text) :
  head_is is_mark s = true -> head_is isspace s = false.
Proof. destruct s as [|c s]; cbn; [reflexivity | apply mark_not_space]. Qed.

Lemma sub_marks_head (s : text) :
  head_is is_mark (sub_marks s) = head_is is_mark s.
Proof.
  induction s as [|c s IH]; [reflexivity|].
  cbn [sub_marks]. destruct (is_mark c && head_is is_mark s) eqn:E.
  - apply andb_true_iff in E as [Hc Hs]. rewrite IH, Hs. cbn. now rewrite Hc.
  - reflexivity.
Qed.

Lemma sub_marks_no_adjacent (s : text) : no_adjacent_marks (sub_marks s) = true.
Proof.
  induction s as [|c s IH]; [reflexivity|].
  cbn [sub_marks]. destruct (is_mark c && head_is is_mark s) eqn:E; [exact IH|].
  cbn [no_adjacent_marks]. rewrite sub_marks_head, E, IH. reflexivity.
Qed.

Lemma bang_runs_from_head (seen : bool) (s : text) :
  head_is is_mark s = false ->
  bang_runs_from seen s = ((if seen then 1 else 0) + bang_runs_from false s)%nat.
Proof.
  destruct s as [|c s]; cbn; intro H.
  - destruct seen; reflexivity.
  - rewrite H. reflexivity.
Qed.

Lemma bang_runs_from_seen (seen : bool) (s : text) :
  (bang_runs_from false s <= bang_runs_from seen s)%nat.
Proof.
  revert seen. induction s as [|c s IH]; intro seen; cbn.
  - destruct seen; lia.
  - destruct (is_mark c).
    + destruct seen; cbn; [|lia].
      destruct (is_char "!"%char c); [lia|]. apply IH.
    + destruct seen; lia.
Qed.

Lemma sub_marks_bang_count (s : text) :
  forall seen, (count_bang (sub_marks s) <= bang_runs_from seen s)%nat.
Proof.
  unfold count_bang.
  induction s as [|c s IH]; intro seen; [cbn; lia|].
  cbn [sub_marks]. destruct (is_mark c && head_is is_mark s) eqn:E.
  - apply andb_true_iff in E as [Hc Hs]. cbn [bang_runs_from].
    rewrite Hc. apply IH.
  - cbn [filter bang_runs_from].
    destruct (is_mark c) eqn:Hc.
    + cbn [andb] in E. rewrite (bang_runs_from_head _ s E).
      specialize (IH false).
      destruct (is_char "!"%char c); cbn [List.length];
        [rewrite orb_true_r | rewrite orb_false_r; destruct seen]; lia.
    + destruct (is_char "!"%char c) eqn:Hb.
      * apply bang_is_mark in Hb. congruence.
      * specialize (IH false). lia.
Qed.

Lemma bang_runs_from_lower (s : text) :
  forall seen, bang_runs_from seen (lower s) = bang_runs_from seen s.
Proof.
  induction s as [|c s IH]; intro seen; [reflexivity|].
  cbn [lower map bang_runs_from]. fold (lower s).
  rewrite lower_char_mark, lower_char_bang, !IH. reflexivity.
Qed.

Lemma bang_runs_lstrip (s : text) :
  bang_runs_from false (lstrip isspace s) = bang_runs_from false s.
Proof.
  induction s as [|c s IH]; [reflexivity|].
  cbn [lstrip]. destruct (isspace c) eqn:Hc; [|reflexivity].
  cbn [bang_runs_from]. rewrite (space_not_mark c Hc). exact IH.
Qed.

Lemma bang_runs_from_rstrip (s : text) :
  forall seen, bang_runs_from seen (rstrip isspace s) = bang_runs_from seen s.
Proof.
  induction s as [|c s IH]; intro seen; [reflexivity|].
  cbn [rstrip]. destruct (rstrip isspace s) as [|b r] eqn:E.
  - destruct (isspace c) eqn:Hc.
    + cbn [bang_runs_from]. rewrite (space_not_mark c Hc), <- IH.
      cbn. destruct seen; reflexivity.
    + cbn [bang_runs_from]. rewrite <- !IH. reflexivity.
  - cbn [bang_runs_from]. rewrite <- !IH. reflexivity.
Qed.

Lemma head_is_space_not_mark (s : text) :
  head_is isspace s = true -> head_is is_mark s = false.
Proof. destruct s as [|c s]; cbn; [reflexivity | apply space_not_mark]. Qed.

Lemma bang_runs_from_sub_whitespace (s : text) :
  forall seen, bang_runs_from seen (sub_whitespace s) = bang_runs_from seen s.
Proof.
  induction s as [|c s IH]; intro seen; [reflexivity|].
  cbn [sub_whitespace]. destruct (isspace c) eqn:Hc.
  - cbn [bang_runs_from]. rewrite (space_not_mark c Hc).
    destruct (head_is isspace s) eqn:Hs.
    + rewrite IH. apply bang_runs_from_head, head_is_space_not_mark, Hs.
    + cbn [bang_runs_from]. change (is_mark " "%char) with false.
      cbn iota. rewrite IH. reflexivity.
  - cbn [bang_runs_from]. rewrite !IH. reflexivity.
Qed.

Lemma unquote_without_percent (s : text) :
  has_char "%"%char s = false -> unquote s = s.
Proof.
  induction s as [|c s IH]; [reflexivity|].
  unfold has_char, is_char. cbn [existsb unquote]. intro H.
  apply orb_false_iff in H as [Hc Hs]. rewrite Hc, (IH Hs). reflexivity.
Qed.

(** Every character of the output is a character of the input or a
    space: a class closed under that survives the pass. *)
Section Preserved.

Variable q : ascii -> bool.

Lemma forallb_lstrip (p : ascii -> bool) (s : text) :
  forallb q s = true -> forallb q (lstrip p s) = true.
Proof.
  induction s as [|c s IH]; [reflexivity|].
  cbn [lstrip]. destruct (p c); [|trivial].
  cbn. intro H. apply andb_true_iff in H as [_ H]. now apply IH.
Qed.

Lemma forallb_rstrip (p : ascii -> bool) (s : text) :
  forallb q s = true -> forallb q (rstrip p s) = true.
Proof.
  induction s as [|c s IH]; [reflexivity|].
  cbn [rstrip forallb]. intro H. apply andb_true_iff in H as [Hc Hs].
  specialize (IH Hs). destruct (rstrip p s) as [|b r].
  - destruct (p c); cbn; [reflexivity | now rewrite Hc].
  - cbn [forallb] in IH |- *. rewrite Hc. exact IH.
Qed.

Lemma forallb_sub_whitespace (s : text) :
  q " "%char = true ->
  forallb q s = true -> forallb q (sub_whitespace s) = true.
Proof.
  intro Hsp. induction s as [|c s IH]; [reflexivity|].
  cbn [sub_whitespace forallb]. intro H. apply andb_true_iff in H as [Hc Hs].
  specialize (IH Hs).
  destruct (isspace c); [destruct (head_is isspace s)|]; cbn [forallb];
    rewrite ?Hsp, ?Hc, ?IH; reflexivity.
Qed.

Lemma forallb_sub_marks (s : text) :
  forallb q s = true -> forallb q (sub_marks s) = true.
Proof.
  induction s as [|c s IH]; [reflexivity|].
  cbn [sub_marks forallb]. intro H. apply andb_true_iff in H as [Hc Hs].
  specialize (IH Hs).
  destruct (is_mark c && head_is is_mark s); cbn [forallb];
    rewrite ?Hc, ?IH; reflexivity.
Qed.

End Preserved.

Lemma has_char_forallb (s : text) :
  has_char "%"%char s = false <-> forallb not_percent s = true.
Proof.
  unfold has_char, not_percent.
  induction s as [|c s IH]; cbn; [tauto|].
  rewrite orb_false_iff, andb_true_iff, negb_true_iff, IH. tauto.
Qed.

Lemma lower_without_percent (s : text) :
  forallb not_percent s = true -> forallb not_percent (lower s) = true.
Proof.
  induction s as [|c s IH]; [reflexivity|].
  cbn [lower map forallb]. fold (lower s). unfold not_percent at 1 3.
  rewrite lower_char_percent. intro H. apply andb_true_iff in H as [Hc Hs].
  now rewrite Hc, IH.
Qed.

Lemma collapsed_without_percent (t : text) :
  has_char "%"%char t = false ->
  has_char "%"%char (sub_whitespace (strip (lower t))) = false.
Proof.
  rewrite !has_char_forallb. intro H.
  apply forallb_sub_whitespace; [reflexivity|].
  unfold strip, strip_by.
  apply forallb_rstrip, forallb_lstrip, lower_without_percent, H.
Qed.

Lemma percent_decoded_without_percent (t : text) :
  has_char "%"%char t = false ->
  percent_decoded t = sub_whitespace (strip (lower t)).
Proof.
  intro H. unfold percent_decoded.
  apply unquote_without_percent, collapsed_without_percent, H.
Qed.

Lemma bang_runs_collapsed (t : text) :
  bang_runs (sub_whitespace (strip (lower t))) = bang_runs t.
Proof.
  unfold bang_runs, strip, strip_by.
  rewrite bang_runs_from_sub_whitespace, bang_runs_from_rstrip,
    bang_runs_lstrip, bang_runs_from_lower.
  reflexivity.
Qed.

Lemma detect_analysis (now : string) (t : text) (result : classified)
      (explanations : list explanation) (recommendations : list string) :
  snd (detect now t) = Return (Analysis result explanations recommendations) ->
  truthy t = true
  /\ extract_features (preprocess_text t) = Return (features result)
  /\ processed_text result = preprocess_text t
  /\ original_text result = t.
Proof.
  unfold detect.
  destruct (truthy t) eqn:Ht; [|cbn; discriminate].
  destruct (truthy (strip t)) eqn:Hs; [|cbn; discriminate].
  cbn [negb orb]. unfold and_then, invoke.
  destruct (extract_features (preprocess_text t)) as [f|e] eqn:He;
    cbn [snd]; [|discriminate].
  intro H. injection H as <- _ _.
  destruct (_classify_fields now (calculate_score f) f t (preprocess_text t))
    as (Ho & Hp & Hf & _).
  rewrite Ho, Hp, Hf. repeat split.
Qed.

Lemma extract_features_exclamations (s : text) (f : feature_record) :
  extract_features s = Return f ->
  exclamation_count f = count_if (is_char "!"%char) s.
Proof.
  unfold extract_features.
  destruct (analyze_urls _ _) as [[[[n_short n_tld] n_ip] details]|e];
    cbn [bind]; [|discriminate].
  intro H. injection H as <-. reflexivity.
Qed.

Lemma preprocess_text_nonempty (t : text) :
  truthy t = true -> preprocess_text t = sub_marks (percent_decoded t).
Proof. intro H. unfold preprocess_text. rewrite H. reflexivity. Qed.

Lemma hello_detect (now : string) :
  detect now hello_text =
  ([Preprocess_text; Extract_features; Calculate_score; Classify;
    Explain_features; Generate_recommendations],
   Return (Analysis
             (_classify now (calculate_score hello_features) hello_features
                        hello_text (preprocess_text hello_text))
             (_explain_features hello_features)
             (_generate_recommendations
                (classification
                   (_classify now (calculate_score hello_features) hello_features
                              hello_text (preprocess_text hello_text)))))).
Proof.
  apply detect_returns; vm_compute; reflexivity.
Qed.

(** C10, as amended.  The [exclamation_count] that [detect] reports is
    the number of exclamation marks of the normalized text; in that text
    no mark of [!?.] is followed by another, every run having been
    collapsed to one character; ["Hello!!!"] gives 1; and the count is
    at most the number of maximal runs of marks containing an
    exclamation mark in the percent-decoded text, which for an input
    without a percent sign is their number in the original input. *)
Theorem exclamation_count_after_collapse :
  (forall (now : string) (t : text) (result : classified)
          (explanations : list explanation) (recommendations : list string),
      snd (detect now t) = Return (Analysis result explanations recommendations) ->
      exclamation_count (features result)
      = count_if (is_char "!"%char) (preprocess_text t)
      /\ preprocess_text t = sub_marks (percent_decoded t)
      /\ no_adjacent_marks (preprocess_text t) = true
      /\ (exclamation_count (features result)
          <= Z.of_nat (bang_runs (percent_decoded t)))%Z
      /\ (has_char "%"%char t = false ->
          (exclamation_count (features result) <= Z.of_nat (bang_runs t))%Z))
  /\ (forall now : string,
      exists result explanations recommendations,
        snd (detect now hello_text)
        = Return (Analysis result explanations recommendations)
        /\ exclamation_count (features result) = 1%Z).
Proof.
  split.
  - intros now t result explanations recommendations H.
    apply detect_analysis in H as (Ht & He & _ & _).
    apply extract_features_exclamations in He.
    pose proof (preprocess_text_nonempty t Ht) as Hp.
    assert (Hb : (exclamation_count (features result)
                  <= Z.of_nat (bang_runs (percent_decoded t)))%Z).
    { rewrite He, Hp. unfold count_if. apply Nat2Z.inj_le.
      apply (sub_marks_bang_count (percent_decoded t) false). }
    split; [exact He|]. split; [exact Hp|].
    split; [rewrite Hp; apply sub_marks_no_adjacent|].
    split; [exact Hb|].
    intro Hpc. rewrite (percent_decoded_without_percent t Hpc) in Hb.
    rewrite bang_runs_collapsed in Hb. exact Hb.
  - intro now. rewrite hello_detect. do 3 eexists. split; [reflexivity|].
    destruct (_classify_fields now (calculate_score hello_features)
                hello_features hello_text (preprocess_text hello_text))
      as (_ & _ & Hf & _).
    rewrite Hf. reflexivity.
Qed.

Lemma exclamation_count_after_collapse_witness :
  (exclamation_count
     (features (_classify a_time (calculate_score hello_features) hello_features
                          hello_text (preprocess_text hello_text)))
   <= Z.of_nat (bang_runs hello_text))%Z.
Proof.
  refine (proj2 (proj2 (proj2 (proj2
    (proj1 exclamation_count_after_collapse a_time hello_text _ _ _ _)))) _).
  - rewrite hello_detect. reflexivity.
  - vm_compute. reflexivity.
Defined.

(** C10 as stated fails: in ["act now%21"] the original input holds no
    exclamation mark, and percent-decoding brings one in. *)
Lemma exclamation_bound_counterexample :
  ~ exclamations_bounded_by_input_runs a_time encoded_bang_text.
Proof.
  intro H.
  assert (Hd : detect a_time encoded_bang_text =
    ([Preprocess_text; Extract_features; Calculate_score; Classify;
      Explain_features; Generate_recommendations],
     Return (Analysis
       (_classify a_time (calculate_score encoded_bang_features)
                  encoded_bang_features encoded_bang_text
                  (preprocess_text encoded_bang_text))
       (_explain_features encoded_bang_features)
       (_generate_recommendations
          (classification
             (_classify a_time (calculate_score encoded_bang_features)
                        encoded_bang_features encoded_bang_text
                        (preprocess_text encoded_bang_text))))))).
  { apply detect_returns; vm_compute; reflexivity. }
  specialize (H _ _ _ (f_equal snd Hd)).
  destruct (_classify_fields a_time (calculate_score encoded_bang_features)
              encoded_bang_features encoded_bang_text
              (preprocess_text encoded_bang_text))
    as (_ & _ & Hf & _).
  rewrite Hf in H. vm_compute in H. apply H. reflexivity.
Qed.

(** ** Normalizing twice *)

Lemma lower_char_lowered (c : ascii) : is_lowered (lower_char c) = true.
Proof. each_char c; reflexivity. Qed.

Lemma space_is_lowered : is_lowered " "%char = true.
Proof. reflexivity. Qed.

Lemma lower_lowered (s : text) : forallb is_lowered (lower s) = true.
Proof.
  induction s as [|c s IH]; [reflexivity|].
  cbn [lower map forallb]. fold (lower s).
  now rewrite lower_char_lowered, IH.
Qed.

Lemma lower_fixed (s : text) : forallb is_lowered s = true -> lower s = s.
Proof.
  induction s as [|c s IH]; [reflexivity|].
  cbn [lower map forallb]. fold (lower s). intro H.
  apply andb_true_iff in H as [Hc Hs]. unfold is_lowered in Hc.
  apply Ascii.eqb_eq in Hc. now rewrite Hc, IH.
Qed.

Lemma lstrip_fixed (p : ascii -> bool) (s : text) :
  head_is p s = false -> lstrip p s = s.
Proof. destruct s as [|c s]; cbn; [reflexivity|]. now intros ->. Qed.

Lemma rstrip_head (p : ascii -> bool) (s : text) :
  head_is p s = false -> head_is p (rstrip p s) = false.
Proof.
  destruct s as [|c s]; [reflexivity|]. cbn [head_is rstrip]. intro Hc.
  destruct (rstrip p s); [rewrite Hc|]; cbn; exact Hc.
Qed.

Lemma rstrip_ends_clean (s : text) : ends_clean (rstrip isspace s) = true.
Proof.
  induction s as [|c s IH]; [reflexivity|].
  cbn [rstrip]. destruct (rstrip isspace s) as [|b r].
  - destruct (isspace c) eqn:Hc; [reflexivity|].
    cbn. unfold nonspace. now rewrite Hc.
  - cbn [ends_clean truthy] in IH |- *. rewrite orb_true_r. exact IH.
Qed.

Lemma head_nonspace (s : text) :
  truthy s = true -> head_is isspace s = false -> head_is nonspace s = true.
Proof.
  destruct s as [|c s]; cbn; [discriminate|].
  intros _ H. unfold nonspace. now rewrite H.
Qed.

Lemma head_mark_nonspace (s : text) :
  head_is is_mark s = true -> head_is nonspace s = true.
Proof.
  destruct s as [|c s]; cbn; [discriminate|].
  intro H. unfold nonspace. now rewrite (mark_not_space c H).
Qed.

Lemma sub_whitespace_head (s : text) :
  head_is isspace (sub_whitespace s) = head_is isspace s.
Proof.
  induction s as [|c s IH]; [reflexivity|].
  cbn [sub_whitespace head_is]. destruct (isspace c) eqn:Hc.
  - destruct (head_is isspace s) eqn:Hs; [now rewrite IH | reflexivity].
  - cbn. exact Hc.
Qed.

Lemma sub_whitespace_head_nonspace (s : text) :
  head_is nonspace (sub_whitespace s) = head_is nonspace s.
Proof.
  destruct s as [|c s]; [reflexivity|].
  cbn [sub_whitespace head_is]. unfold nonspace at 2.
  destruct (isspace c) eqn:Hc.
  - pose proof (sub_whitespace_head s) as H.
    destruct (head_is isspace s) eqn:Hs; [|reflexivity].
    destruct (sub_whitespace s) as [|d r]; [reflexivity|].
    cbn in H |- *. unfold nonspace. now rewrite H.
  - cbn. unfold nonspace. now rewrite Hc.
Qed.

Lemma sub_whitespace_single_spaced (s : text) :
  ends_clean s = true -> single_spaced (sub_whitespace s) = true.
Proof.
  induction s as [|c s IH]; [reflexivity|].
  cbn [ends_clean sub_whitespace]. intro H.
  apply andb_true_iff in H as [Hc Hs]. specialize (IH Hs).
  unfold nonspace in Hc. destruct (isspace c) eqn:Ec.
  - cbn [negb orb] in Hc. destruct (head_is isspace s) eqn:Es; [exact IH|].
    cbn [single_spaced]. rewrite IH, sub_whitespace_head_nonspace.
    rewrite (head_nonspace s Hc Es). reflexivity.
  - cbn [single_spaced]. unfold nonspace. now rewrite Ec, IH.
Qed.

Lemma sub_marks_head_space (s : text) :
  head_is isspace (sub_marks s) = head_is isspace s.
Proof.
  destruct s as [|c s]; [reflexivity|].
  cbn [sub_marks]. destruct (is_mark c && head_is is_mark s) eqn:E; [|reflexivity].
  apply andb_true_iff in E as [Hc Hs]. cbn [head_is].
  rewrite (mark_not_space c Hc).
  apply head_is_mark_not_space. now rewrite sub_marks_head.
Qed.

Lemma sub_marks_head_nonspace (s : text) :
  head_is nonspace (sub_marks s) = head_is nonspace s.
Proof.
  destruct s as [|c s]; [reflexivity|].
  cbn [sub_marks]. destruct (is_mark c && head_is is_mark s) eqn:E; [|reflexivity].
  apply andb_true_iff in E as [Hc Hs]. cbn [head_is].
  unfold nonspace at 2. rewrite (mark_not_space c Hc).
  apply head_mark_nonspace. now rewrite sub_marks_head.
Qed.

Lemma sub_marks_single_spaced (s : text) :
  single_spaced s = true -> single_spaced (sub_marks s) = true.
Proof.
  induction s as [|c s IH]; [reflexivity|].
  cbn [single_spaced sub_marks]. intro H.
  apply andb_true_iff in H as [Hc Hs]. specialize (IH Hs).
  destruct (is_mark c && head_is is_mark s); [exact IH|].
  cbn [single_spaced]. now rewrite sub_marks_head_nonspace, Hc, IH.
Qed.

Lemma single_spaced_sub_whitespace (s : text) :
  single_spaced s = true -> sub_whitespace s = s.
Proof.
  induction s as [|c s IH]; [reflexivity|].
  cbn [single_spaced sub_whitespace]. intro H.
  apply andb_true_iff in H as [Hc Hs]. rewrite (IH Hs).
  unfold nonspace in Hc at 1. destruct (isspace c); [|reflexivity].
  cbn [negb orb] in Hc. apply andb_true_iff in Hc as [Hsp Hn].
  unfold is_char in Hsp. apply Ascii.eqb_eq in Hsp. subst c.
  destruct s as [|d r]; [discriminate Hn|].
  cbn in Hn |- *. unfold nonspace in Hn.
  destruct (isspace d); [discriminate Hn | reflexivity].
Qed.

Lemma single_spaced_rstrip (s : text) :
  single_spaced s = true -> rstrip isspace s = s.
Proof.
  induction s as [|c s IH]; [reflexivity|].
  cbn [single_spaced rstrip]. intro H.
  apply andb_true_iff in H as [Hc Hs]. rewrite (IH Hs).
  destruct s as [|d r]; [|reflexivity].
  cbn in Hc. rewrite andb_false_r, orb_false_r in Hc.
  unfold nonspace in Hc. destruct (isspace c); [discriminate Hc | reflexivity].
Qed.

Lemma no_adjacent_sub_marks (s : text) :
  no_adjacent_marks s = true -> sub_marks s = s.
Proof.
  induction s as [|c s IH]; [reflexivity|].
  cbn [no_adjacent_marks sub_marks]. intro H.
  apply andb_true_iff in H as [Hc Hs]. rewrite (IH Hs).
  apply negb_true_iff in Hc. now rewrite Hc.
Qed.

Lemma collapsed_lowered (t : text) : forallb is_lowered (collapsed t) = true.
Proof.
  unfold collapsed, strip, strip_by.
  apply forallb_sub_marks, forallb_sub_whitespace; [reflexivity|].
  apply forallb_rstrip, forallb_lstrip, lower_lowered.
Qed.

Lemma collapsed_fixed (t : text) :
  has_char "%"%char t = false ->
  sub_marks (unquote (sub_whitespace (strip (lower (collapsed t))))) = collapsed t.
Proof.
  intro Hpc. unfold collapsed.
  set (y := sub_whitespace (strip (lower t))).
  assert (Hlow : forallb is_lowered (sub_marks y) = true)
    by apply collapsed_lowered.
  assert (Hhead : head_is isspace (sub_marks y) = false).
  { rewrite sub_marks_head_space. unfold y. rewrite sub_whitespace_head.
    apply rstrip_head, lstrip_head. }
  assert (Hsp : single_spaced (sub_marks y) = true).
  { apply sub_marks_single_spaced, sub_whitespace_single_spaced,
      rstrip_ends_clean. }
  assert (Hno : has_char "%"%char (sub_marks y) = false).
  { apply has_char_forallb, forallb_sub_marks, has_char_forallb.
    apply collapsed_without_percent, Hpc. }
  rewrite (lower_fixed _ Hlow). unfold strip, strip_by.
  rewrite (lstrip_fixed _ _ Hhead), (single_spaced_rstrip _ Hsp).
  rewrite (single_spaced_sub_whitespace _ Hsp).
  rewrite (unquote_without_percent _ Hno).
  apply no_adjacent_sub_marks, sub_marks_no_adjacent.
Qed.

Lemma preprocess_text_without_percent (t : text) :
  has_char "%"%char t = false ->
  preprocess_text t = if truthy t then collapsed t else [].
Proof.
  intro Hpc. unfold preprocess_text, collapsed.
  destruct (truthy t); [|reflexivity]. cbn [negb].
  now rewrite (unquote_without_percent _ (collapsed_without_percent t Hpc)).
Qed.

(** C4, as amended.  On a text that holds no percent sign,
    normalizing twice gives what normalizing once gives. *)
Theorem preprocess_text_idempotent_without_percent :
  forall t : text,
    has_char "%"%char t = false ->
    preprocess_text (preprocess_text t) = preprocess_text t.
Proof.
  intros t Hpc. rewrite (preprocess_text_without_percent t Hpc).
  destruct (truthy t); [|reflexivity].
  unfold preprocess_text at 1.
  destruct (truthy (collapsed t)) eqn:E.
  - cbn [negb]. apply collapsed_fixed, Hpc.
  - destruct (collapsed t); [reflexivity | discriminate E].
Qed.

Lemma preprocess_text_idempotent_without_percent_witness :
  preprocess_text (preprocess_text banking_text) = preprocess_text banking_text.
Proof.
  apply (preprocess_text_idempotent_without_percent banking_text).
  vm_compute. reflexivity.
Defined.

(** C4 as stated fails: ["%2520"] normalizes to ["%20"], and that to a
    space. *)
Lemma preprocess_text_not_idempotent : ~ idempotent_at double_encoded_text.
Proof. unfold idempotent_at. vm_compute. discriminate. Qed.

(** ** The capital-letter ratio of normalized text *)







(** * Further properties of the code *)

(** ** The feature record *)

Lemma _analyze_url_original (url : text) : original_of (_analyze_url url) = url.
Proof.
  unfold _analyze_url.
  destruct (urlparse _) as [[netloc p]|e]; reflexivity.
Qed.

Lemma _analyze_url_degraded (url : text) :
  is_analysed (_analyze_url url) = false -> parse_fails url.
Proof.
  unfold parse_fails, _analyze_url.
  destruct (urlparse _) as [[netloc p]|e]; [discriminate | reflexivity].
Qed.

Lemma analyze_urls_returns (urls : list text) :
  forall n_short n_tld n_ip details n_short' n_tld' n_ip' details',
    analyze_urls urls (n_short, n_tld, n_ip, details)
    = Return (n_short', n_tld', n_ip', details') ->
    (n_short <= n_short' <= n_short + Z.of_nat (List.length urls))%Z
    /\ (n_tld <= n_tld' <= n_tld + Z.of_nat (List.length urls))%Z
    /\ (n_ip <= n_ip' <= n_ip + Z.of_nat (List.length urls))%Z
    /\ details' = details ++ map _analyze_url urls
    /\ forallb parses urls = true.
Proof.
  induction urls as [|url rest IH]; intros a b c d a' b' c' d' H.
  - cbn in H. injection H as <- <- <- <-. cbn [List.length Z.of_nat map forallb].
    rewrite app_nil_r. repeat split; lia.
  - cbn [analyze_urls] in H. cbn [forallb map]. unfold parses at 1.
    destruct (_analyze_url url) as [i|o e] eqn:E; [|discriminate H].
    cbn in H. apply IH in H as (Ha & Hb & Hc & Hd & Hf).
    rewrite Hf, Hd, <- app_assoc. cbn [app is_analysed andb List.length].
    rewrite Nat2Z.inj_succ.
    destruct (is_shortener i), (has_suspicious_tld i), (is_ip_address i);
      repeat split; lia.
Qed.

Lemma analyze_urls_all_parse (urls : list text) :
  forallb parses urls = true ->
  forall st, exists st', analyze_urls urls st = Return st'.
Proof.
  induction urls as [|url rest IH]; intros H st; [now exists st|].
  cbn [forallb] in H. apply andb_true_iff in H as [Hu Hr].
  destruct st as [[[a b] c] d]. cbn [analyze_urls].
  unfold parses in Hu. destruct (_analyze_url url) as [i|o e]; [|discriminate Hu].
  cbn. apply IH, Hr.
Qed.

Lemma forallb_parses_false (urls : list text) :
  forallb parses urls = false -> Exists parse_fails urls.
Proof.
  induction urls as [|url rest IH]; [discriminate|].
  cbn [forallb]. intro H. apply andb_false_iff in H as [H|H].
  - left. apply _analyze_url_degraded, H.
  - right. apply IH, H.
Qed.

Lemma extract_features_fields (s : text) (f : feature_record) :
  extract_features s = Return f ->
  exists n_short n_tld n_ip details,
    analyze_urls (extract_urls s) (0, 0, 0, [])%Z
    = Return (n_short, n_tld, n_ip, details)
    /\ total_urls f = Z.of_nat (List.length (extract_urls s))
    /\ suspicious_urls f = n_short
    /\ suspicious_domains f = n_tld
    /\ ip_address_urls f = n_ip
    /\ url_details f = details
    /\ exclamation_count f = count_if (is_char "!"%char) s
    /\ all_caps_ratio f = _calculate_caps_ratio s
    /\ digit_ratio f = ratio (count_if isdigit s) (Z.max 1 (len s))
    /\ special_char_ratio f = ratio (count_if is_punctuation s) (Z.max 1 (len s))
    /\ greeting_missing f = _check_greeting s
    /\ sense_of_urgency f = _check_urgency_indicators s
    /\ generic_greeting f = _check_generic_greeting s
    /\ threat_score f = keyword_score threat_keywords (split s)
    /\ auth_score f = keyword_score auth_keywords (split s)
    /\ financial_score f = keyword_score financial_keywords (split s)
    /\ impersonation_score f = keyword_score impersonation_keywords (split s).
Proof.
  unfold extract_features.
  destruct (analyze_urls _ _) as [[[[n_short n_tld] n_ip] details]|e];
    cbn [bind]; [|discriminate].
  intro H. injection H as <-. exists n_short, n_tld, n_ip, details.
  cbn [total_urls suspicious_urls suspicious_domains ip_address_urls
       url_details exclamation_count all_caps_ratio digit_ratio
       special_char_ratio greeting_missing sense_of_urgency generic_greeting
       threat_score auth_score financial_score impersonation_score].
  repeat (split; [reflexivity|]). reflexivity.
Qed.

(** X1.  In a feature record that [extract_features] returns, the
    number of URLs is the number [extract_urls] found, and each of the
    three URL counters lies between 0 and that number. *)
Theorem url_counts_bounded :
  forall (s : text) (f : feature_record),
    extract_features s = Return f ->
    total_urls f = Z.of_nat (List.length (extract_urls s))
    /\ (0 <= suspicious_urls f <= total_urls f)%Z
    /\ (0 <= suspicious_domains f <= total_urls f)%Z
    /\ (0 <= ip_address_urls f <= total_urls f)%Z.
Proof.
  intros s f H.
  apply extract_features_fields in H
    as (a & b & c & d & Hl & Ht & Ha & Hb & Hc & _).
  apply analyze_urls_returns in Hl as (Ha' & Hb' & Hc' & _).
  rewrite Ht, Ha, Hb, Hc. repeat split; lia.
Qed.

Lemma url_counts_bounded_witness :
  (0 <= suspicious_urls banking_features <= total_urls banking_features)%Z.
Proof.
  apply (url_counts_bounded (preprocess_text banking_text) banking_features).
  vm_compute. reflexivity.
Defined.

(** X2.  A feature record that [extract_features] returns holds one
    entry of [url_details] for each extracted URL, in order, each with
    that URL as its [original]; and none of the entries is the degraded
    record: when a URL fails to parse no record is returned at all. *)
Theorem url_details_all_parsed :
  forall (s : text) (f : feature_record),
    extract_features s = Return f ->
    map original_of (url_details f) = extract_urls s
    /\ forallb is_analysed (url_details f) = true.
Proof.
  intros s f H.
  apply extract_features_fields in H
    as (a & b & c & d & Hl & _ & _ & _ & _ & Hd & _).
  apply analyze_urls_returns in Hl as (_ & _ & _ & Hd' & Hp).
  rewrite Hd, Hd'. cbn [app]. split.
  - rewrite map_map. rewrite <- (map_id (extract_urls s)) at 2.
    apply map_ext. intro u. apply _analyze_url_original.
  - rewrite <- Hp. clear.
    induction (extract_urls s) as [|u l IH]; [reflexivity|].
    cbn [map forallb]. rewrite IH. reflexivity.
Qed.

Lemma url_details_all_parsed_witness :
  map original_of (url_details banking_features)
  = extract_urls (preprocess_text banking_text).
Proof.
  apply (url_details_all_parsed (preprocess_text banking_text) banking_features).
  vm_compute. reflexivity.
Defined.

Lemma extract_features_all_parse (s : text) :
  forallb parses (extract_urls s) = true ->
  exists f, extract_features s = Return f.
Proof.
  intro H.
  destruct (analyze_urls_all_parse _ H (0, 0, 0, [])%Z)
    as [[[[a b] c] d] Hst].
  unfold extract_features. rewrite Hst. cbn [bind]. eexists. reflexivity.
Qed.

(** X3.  [extract_features] returns a record exactly when every
    extracted URL parses; when one does not, it raises [KeyError] for
    the key [is_shortener], whatever else the text holds. *)
Theorem extract_features_outcome :
  forall s : text,
    (forallb parses (extract_urls s) = true ->
     exists f, extract_features s = Return f)
    /\ (forallb parses (extract_urls s) = false ->
        extract_features s = Raise (KeyError "is_shortener")).
Proof.
  intro s. split; intro H.
  - apply extract_features_all_parse, H.
  - apply extract_features_degraded, forallb_parses_false, H.
Qed.

Lemma extract_features_outcome_witness :
  extract_features (preprocess_text broken_url_text)
  = Raise (KeyError "is_shortener").
Proof.
  apply (proj2 (extract_features_outcome (preprocess_text broken_url_text))).
  vm_compute. reflexivity.
Defined.

Lemma count_if_bounds (p : ascii -> bool) (s : text) :
  (0 <= count_if p s <= len s)%Z.
Proof.
  unfold count_if, len. pose proof (filter_length_le p s). lia.
Qed.

Lemma ratio_in_unit_interval (a b : Z) :
  (0 <= a <= b)%Z -> (0 < b)%Z -> in_unit_interval (ratio a b).
Proof.
  intros [Ha Hab] Hb. unfold in_unit_interval, ratio.
  rewrite Zlt_Qlt in Hb. rewrite Zle_Qle in Ha, Hab.
  split.
  - apply Qle_shift_div_l; [exact Hb|].
    rewrite Qmult_0_l. exact Ha.
  - apply Qle_shift_div_r; [exact Hb|].
    rewrite Qmult_1_l. exact Hab.
Qed.

Lemma zero_in_unit_interval : in_unit_interval 0.
Proof. split; discriminate. Qed.

Lemma _calculate_caps_ratio_range (s : text) :
  in_unit_interval (_calculate_caps_ratio s).
Proof.
  unfold _calculate_caps_ratio.
  destruct (truthy s); cbn [negb]; [|apply zero_in_unit_interval].
  destruct (filter isalpha s) as [|c letters] eqn:E; cbn [truthy negb];
    [apply zero_in_unit_interval|].
  apply ratio_in_unit_interval; [apply count_if_bounds|].
  unfold len. cbn [List.length]. lia.
Qed.

(** X4.  The three ratios of a feature record that [extract_features]
    returns lie in [0, 1], for the empty text as well: the divisor of
    the digit and special-character ratios is [max(1, len(text))]. *)
Theorem ratios_in_unit_interval :
  forall (s : text) (f : feature_record),
    extract_features s = Return f ->
    in_unit_interval (all_caps_ratio f)
    /\ in_unit_interval (digit_ratio f)
    /\ in_unit_interval (special_char_ratio f).
Proof.
  intros s f H.
  apply extract_features_fields in H
    as (a & b & c & d & _ & _ & _ & _ & _ & _ & _ & Hc & Hd & Hs & _).
  rewrite Hc, Hd, Hs.
  pose proof (count_if_bounds isdigit s).
  pose proof (count_if_bounds is_punctuation s).
  split; [apply _calculate_caps_ratio_range|].
  split; apply ratio_in_unit_interval; lia.
Qed.

Lemma ratios_in_unit_interval_witness :
  in_unit_interval (digit_ratio banking_features).
Proof.
  apply (ratios_in_unit_interval (preprocess_text banking_text) banking_features).
  vm_compute. reflexivity.
Defined.

(** X5.  In a feature record that [extract_features] returns, each of
    the three context flags is 0 or 1, and the exclamation count lies
    between 0 and the length of the text. *)
Theorem flags_and_exclamations_bounded :
  forall (s : text) (f : feature_record),
    extract_features s = Return f ->
    is_flag (greeting_missing f)
    /\ is_flag (sense_of_urgency f)
    /\ is_flag (generic_greeting f)
    /\ (0 <= exclamation_count f <= len s)%Z.
Proof.
  intros s f H.
  apply extract_features_fields in H
    as (a & b & c & d & _ & _ & _ & _ & _ & _ & He & _ & _ & _ & Hg & Hu & Hgg & _).
  rewrite He, Hg, Hu, Hgg.
  unfold _check_greeting, _check_urgency_indicators, _check_generic_greeting, is_flag.
  repeat split;
    try (match goal with |- context [if ?b then _ else _] => destruct b end; auto);
    apply count_if_bounds.
Qed.

Lemma flags_and_exclamations_bounded_witness :
  is_flag (greeting_missing banking_features).
Proof.
  apply (flags_and_exclamations_bounded (preprocess_text banking_text)
                                        banking_features).
  vm_compute. reflexivity.
Defined.

(** ** When extraction cannot fail *)

Section Sublists.

Variable q : ascii -> bool.






End Sublists.









Lemma detect_blank (now : string) (t : text) :
  truthy (strip t) = false ->
  detect now t =
  ([Error_response],
   Return (ErrorResponse "error" "Please enter a message to analyze" now)).
Proof.
  intro H. unfold detect. rewrite H. cbn [negb]. rewrite orb_true_r. reflexivity.
Qed.

(** X6.  The three outcomes of [detect].  On a text that is blank after
    stripping it returns the error response; on any other text it
    raises [KeyError] for [is_shortener] when some URL of the normalized
    text fails to parse, having run normalization and extraction only;
    and otherwise it returns an analysis that carries the input
    unchanged, its normalized form, the timestamp, the features
    extracted from the normalized form and their score. *)
Theorem detect_outcomes :
  forall (now : string) (t : text),
    (truthy (strip t) = false ->
     detect now t =
     ([Error_response],
      Return (ErrorResponse "error" "Please enter a message to analyze" now)))
    /\ (truthy (strip t) = true ->
        forallb parses (extract_urls (preprocess_text t)) = false ->
        detect now t =
        ([Preprocess_text; Extract_features], Raise (KeyError "is_shortener")))
    /\ (truthy (strip t) = true ->
        forallb parses (extract_urls (preprocess_text t)) = true ->
        exists result explanations recommendations,
          detect now t =
          ([Preprocess_text; Extract_features; Calculate_score; Classify;
            Explain_features; Generate_recommendations],
           Return (Analysis result explanations recommendations))
          /\ original_text result = t
          /\ processed_text result = preprocess_text t
          /\ timestamp result = now
          /\ extract_features (preprocess_text t) = Return (features result)
          /\ risk_score result = calculate_score (features result)).
Proof.
  intros now t. split; [apply detect_blank|]. split.
  - intros Hs Hp. apply detect_raises; [exact Hs|].
    apply extract_features_degraded, forallb_parses_false, Hp.
  - intros Hs Hp.
    destruct (extract_features_all_parse _ Hp) as [f Hf].
    rewrite (detect_returns now t f Hs Hf). do 3 eexists.
    split; [reflexivity|].
    destruct (_classify_fields now (calculate_score f) f t (preprocess_text t))
      as (Ho & Hpr & Hfe & Hr & Ht).
    rewrite Ho, Hpr, Hfe, Hr, Ht. repeat split. exact Hf.
Qed.

Lemma detect_outcomes_witness :
  detect a_time broken_url_text =
  ([Preprocess_text; Extract_features], Raise (KeyError "is_shortener")).
Proof.
  apply (proj1 (proj2 (detect_outcomes a_time broken_url_text)));
    vm_compute; reflexivity.
Defined.



(** ** Keyword scores *)







Lemma keyword_fold_none (table : list (string * Q)) (tokens : list text) :
  found table tokens = [] ->
  forall acc,
    fold_left (fun acc kw => if existsb (text_eqb (str (fst kw))) tokens
                             then acc + snd kw else acc) table acc = acc.
Proof.
  unfold found. induction table as [|kw table IH]; intros H acc; [reflexivity|].
  cbn [map filter fold_left] in *.
  destruct (existsb (text_eqb (str (fst kw))) tokens); [discriminate H|].
  apply IH, H.
Qed.

Lemma keyword_fold_grows (table : list (string * Q)) (tokens : list text) :
  positive_weights table ->
  forall acc,
    acc <= fold_left (fun acc kw => if existsb (text_eqb (str (fst kw))) tokens
                                    then acc + snd kw else acc) table acc.
Proof.
  induction 1 as [|kw table Hkw _ IH]; intro acc; [apply Qle_refl|].
  cbn [fold_left]. destruct (existsb _ tokens); [|apply IH].
  eapply Qle_trans; [|apply IH].
  rewrite <- (Qplus_0_r acc) at 1. apply Qplus_le_r, Qlt_le_weak, Hkw.
Qed.

Lemma keyword_fold_some (table : list (string * Q)) (tokens : list text) :
  positive_weights table ->
  found table tokens <> [] ->
  forall acc,
    acc < fold_left (fun acc kw => if existsb (text_eqb (str (fst kw))) tokens
                                   then acc + snd kw else acc) table acc.
Proof.
  unfold found. induction 1 as [|kw table Hkw Hpos IH]; intros Hf acc;
    [now contradiction Hf|].
  cbn [map filter fold_left] in *.
  destruct (existsb (text_eqb (str (fst kw))) tokens).
  - eapply Qlt_le_trans; [|apply keyword_fold_grows, Hpos].
    rewrite <- (Qplus_0_r acc) at 1. apply Qplus_lt_r, Hkw.
  - apply IH, Hf.
Qed.

Lemma keyword_score_zero (table : list (string * Q)) (tokens : list text) :
  positive_weights table ->
  (keyword_score table tokens == 0 <-> found table tokens = []).
Proof.
  intro Hpos. unfold keyword_score. split.
  - intro Hz. destruct (found table tokens) as [|k l] eqn:E; [reflexivity|].
    exfalso.
    assert (Hne : found table tokens <> []) by (rewrite E; discriminate).
    pose proof (keyword_fold_some table tokens Hpos Hne 0) as Hlt.
    rewrite Hz in Hlt. now apply Qlt_irrefl in Hlt.
  - intro Hf. rewrite (keyword_fold_none table tokens Hf). reflexivity.
Qed.

Lemma tables_positive :
  positive_weights threat_keywords /\ positive_weights auth_keywords
  /\ positive_weights financial_keywords
  /\ positive_weights impersonation_keywords.
Proof.
  unfold positive_weights.
  repeat split; repeat (constructor; [reflexivity|]); constructor.
Qed.

Lemma _classify_keywords (now : string) (s : R) (f : feature_record)
      (original processed : text) :
  detected_keywords (_classify now s f original processed)
  = _extract_detected_keywords processed.
Proof.
  unfold _classify.
  destruct (Rge_dec s high_risk);
    [|destruct (Rge_dec s medium_risk); [|destruct (Rge_dec s low_risk)]];
    reflexivity.
Qed.

(** X9.  In every analysis [detect] returns, the keyword lists agree
    with the keyword scores: a category's list of detected keywords is
    empty exactly when that category's score is zero. *)
Theorem detected_keywords_agree_with_scores :
  forall (now : string) (t : text) (result : classified)
         (explanations : list explanation) (recommendations : list string),
    snd (detect now t) = Return (Analysis result explanations recommendations) ->
    (threat_keywords_found (detected_keywords result) = []
     <-> threat_score (features result) == 0)
    /\ (auth_keywords_found (detected_keywords result) = []
        <-> auth_score (features result) == 0)
    /\ (financial_keywords_found (detected_keywords result) = []
        <-> financial_score (features result) == 0)
    /\ (impersonation_keywords_found (detected_keywords result) = []
        <-> impersonation_score (features result) == 0).
Proof.
  intros now t result explanations recommendations H.
  assert (Hk : detected_keywords result
               = _extract_detected_keywords (preprocess_text t)).
  { revert H. unfold detect.
    destruct (negb (truthy t) || negb (truthy (strip t))); [cbn; discriminate|].
    unfold and_then, invoke.
    destruct (extract_features (preprocess_text t)) as [f|e];
      cbn [snd]; [|discriminate].
    intro H. injection H as <- _ _. apply _classify_keywords. }
  apply detect_analysis in H as (_ & He & _ & _).
  apply extract_features_fields in He
    as (? & ? & ? & ? & _ & _ & _ & _ & _ & _ & _ & _ & _ & _ & _ & _ & _
        & -> & -> & -> & ->).
  rewrite Hk. cbn [_extract_detected_keywords threat_keywords_found
    auth_keywords_found financial_keywords_found impersonation_keywords_found].
  destruct tables_positive as (Ht & Ha & Hf & Hi).
  repeat split; intro Hx;
    first [now apply keyword_score_zero | now apply keyword_score_zero in Hx].
Qed.

Lemma detected_keywords_agree_with_scores_witness :
  impersonation_keywords_found
    (detected_keywords
       (_classify a_time (calculate_score hello_features) hello_features
                  hello_text (preprocess_text hello_text))) = []
  <-> impersonation_score
        (features
           (_classify a_time (calculate_score hello_features) hello_features
                      hello_text (preprocess_text hello_text))) == 0.
Proof.
  refine (proj2 (proj2 (proj2
    (detected_keywords_agree_with_scores a_time hello_text _ _ _ _)))).
  rewrite hello_detect. reflexivity.
Defined.

(** ** The normalized text *)

Lemma sub_whitespace_truthy (s : text) : truthy (sub_whitespace s) = truthy s.
Proof.
  induction s as [|c s IH]; [reflexivity|].
  cbn [sub_whitespace]. destruct (isspace c); [|reflexivity].
  destruct s as [|d r]; [reflexivity|].
  destruct (head_is isspace (d :: r)); [exact IH | reflexivity].
Qed.

Lemma unquote_truthy (s : text) : truthy (unquote s) = truthy s.
Proof.
  destruct s as [|c s]; [reflexivity|]. cbn [unquote].
  destruct (Ascii.eqb c "%"%char); [|reflexivity].
  destruct s as [|h1 [|h2 s]]; try reflexivity.
  destruct (hex_value h1), (hex_value h2); reflexivity.
Qed.

Lemma sub_marks_truthy (s : text) : truthy (sub_marks s) = truthy s.
Proof.
  induction s as [|c s IH]; [reflexivity|].
  cbn [sub_marks]. destruct (is_mark c && head_is is_mark s) eqn:E; [|reflexivity].
  apply andb_true_iff in E as [_ E]. rewrite IH.
  destruct s; [discriminate E | reflexivity].
Qed.

(** X10.  The normalized text is empty exactly when the input is blank
    (empty, or whitespace only): normalization never empties a text
    that holds something to analyse. *)
Theorem preprocess_text_empty_iff_blank :
  forall t : text, truthy (preprocess_text t) = truthy (strip t).
Proof.
  intro t. unfold preprocess_text.
  destruct t as [|c t]; [reflexivity|]. cbn [truthy negb].
  rewrite sub_marks_truthy, unquote_truthy, sub_whitespace_truthy.
  unfold strip, strip_by.
  (* [lower] keeps the whitespace where it is *)
  assert (Hl : forall s, lstrip isspace (lower s) = lower (lstrip isspace s)).
  { induction s as [|d s IH]; [reflexivity|].
    cbn [lower map lstrip]. fold (lower s). rewrite lower_char_space.
    destruct (isspace d); [exact IH | reflexivity]. }
  assert (Hr : forall s, truthy (rstrip isspace (lower s))
                         = truthy (rstrip isspace s)).
  { induction s as [|d s IH]; [reflexivity|].
    cbn [lower map rstrip]. fold (lower s). rewrite lower_char_space.
    destruct (rstrip isspace (lower s)), (rstrip isspace s);
      try discriminate IH; try reflexivity.
    destruct (isspace d); reflexivity. }
  rewrite Hl. apply Hr.
Qed.













(** ** Extracted URLs *)

Lemma url_starts_head (s : text) :
  url_starts s = true ->
  exists c s', s = c :: s' /\ isspace c = false /\ is_strip_char c = false.
Proof.
  unfold url_starts. rewrite existsb_exists. intros (p & Hin & H).
  apply andb_true_iff in H as [H _].
  destruct s as [|c s']; [|exists c, s'; split; [reflexivity|]].
  - cbn in Hin. repeat (destruct Hin as [<-|Hin]; [discriminate H|]).
    contradiction.
  - cbn in Hin.
    repeat (destruct Hin as [<-|Hin];
            [cbn [starts_with] in H; apply andb_true_iff in H as [H _];
             apply Ascii.eqb_eq in H; subst c; split; reflexivity|]).
    contradiction.
Qed.

Lemma take_nonspace_nonspace (s : text) :
  forallb nonspace (take_nonspace s) = true.
Proof.
  induction s as [|c s IH]; [reflexivity|].
  cbn [take_nonspace]. destruct (isspace c) eqn:E; [reflexivity|].
  cbn [forallb]. unfold nonspace at 1. now rewrite E, IH.
Qed.

Lemma findall_urls_shape (s : text) :
  forall inside,
    Forall (fun m => forallb nonspace m = true
                     /\ head_is (fun c => negb (is_strip_char c)) m = true)
           (findall_urls inside s).
Proof.
  induction s as [|c s IH]; intro inside; [constructor|].
  cbn [findall_urls]. destruct inside; [apply IH|].
  destruct (url_starts (c :: s)) eqn:E; [|apply IH].
  constructor; [|apply IH]. split; [apply take_nonspace_nonspace|].
  apply url_starts_head in E as (c' & s' & Heq & Hsp & Hst).
  injection Heq as <- <-. cbn [take_nonspace]. rewrite Hsp. cbn [head_is].
  now rewrite Hst.
Qed.

Lemma strip_by_kept_head (p : ascii -> bool) (m : text) :
  head_is (fun c => negb (p c)) m = true ->
  truthy (strip_by p m) = true
  /\ head_is (fun c => negb (p c)) (strip_by p m) = true.
Proof.
  destruct m as [|c m]; [discriminate|]. cbn [head_is]. intro Hc.
  apply negb_true_iff in Hc. unfold strip_by. cbn [lstrip]. rewrite Hc.
  cbn [rstrip]. destruct (rstrip p m); [rewrite Hc|]; cbn; rewrite Hc; now split.
Qed.

(** X13.  Every URL [extract_urls] returns is non-empty, holds no
    whitespace, and does not begin with one of the characters that are
    stripped. *)
Theorem extracted_urls_wellformed :
  forall (t u : text),
    In u (extract_urls t) ->
    truthy u = true
    /\ forallb nonspace u = true
    /\ head_is is_strip_char u = false.
Proof.
  intros t u Hin. unfold extract_urls in Hin.
  apply in_map_iff in Hin as (m & <- & Hm).
  pose proof (findall_urls_shape t false) as HF.
  rewrite Forall_forall in HF. destruct (HF m Hm) as [Hns Hh].
  destruct (strip_by_kept_head is_strip_char m Hh) as [Ht Hh'].
  split; [exact Ht|]. split.
  - unfold strip_by. apply forallb_rstrip, forallb_lstrip, Hns.
  - destruct (strip_by is_strip_char m) as [|c r]; [reflexivity|].
    cbn in Hh' |- *. now apply negb_true_iff in Hh'.
Qed.

Lemma extracted_urls_wellformed_witness :
  forallb nonspace (str "http://bit.ly/abc") = true.
Proof.
  apply (extracted_urls_wellformed (str "See (http://bit.ly/abc).")
                                   (str "http://bit.ly/abc")).
  vm_compute. left. reflexivity.
Defined.

Lemma split_from_space (cur : text) (c : ascii) (s : text) :
  isspace c = true ->
  List.length (split_from cur (c :: s))
  = ((if truthy cur then 1 else 0) + List.length (split_from [] s))%nat.
Proof.
  intro H. cbn [split_from]. rewrite H. destruct cur; reflexivity.
Qed.

Lemma findall_urls_per_word (s : text) :
  (forall cur, truthy cur = true ->
               (List.length (findall_urls true s) + 1
                <= List.length (split_from cur s))%nat)
  /\ (forall cur, (List.length (findall_urls false s)
                   <= List.length (split_from cur s))%nat).
Proof.
  induction s as [|c s [IHin IHout]]; split; intros cur.
  - intro H. destruct cur; [discriminate H | cbn; lia].
  - cbn. lia.
  - intro Hcur. cbn [findall_urls]. destruct (isspace c) eqn:E.
    + rewrite (split_from_space cur c s E), Hcur. cbn [negb].
      specialize (IHout []). lia.
    + cbn [negb split_from]. rewrite E. now apply IHin.
  - cbn [findall_urls]. destruct (url_starts (c :: s)) eqn:U.
    + apply url_starts_head in U as (c' & s' & Heq & Hsp & _).
      injection Heq as <- <-. cbn [split_from List.length]. rewrite Hsp.
      specialize (IHin (c :: cur) eq_refl). lia.
    + destruct (isspace c) eqn:E.
      * rewrite (split_from_space cur c s E). specialize (IHout []). lia.
      * cbn [split_from]. rewrite E. apply IHout.
Qed.

(** X14.  [extract_urls] finds at most one URL in each word of the
    text: the number of URLs is at most the number of words
    [text.split()] gives. *)
Theorem at_most_one_url_per_word :
  forall t : text,
    (List.length (extract_urls t) <= List.length (split t))%nat.
Proof.
  intro t. unfold extract_urls, split. rewrite length_map.
  apply (proj2 (findall_urls_per_word t)).
Qed.

(** X15.  A URL that begins with one of the three shortener prefixes of
    the URL pattern always parses, whatever follows the prefix, and is
    flagged as a shortener with the prefix's host as its domain. *)
Theorem shortener_prefix_is_flagged :
  forall rest : text,
    (exists i, _analyze_url (str "bit.ly/" ++ rest) = Analysed i
               /\ domain i = str "bit.ly" /\ is_shortener i = true)
    /\ (exists i, _analyze_url (str "tinyurl.com/" ++ rest) = Analysed i
                  /\ domain i = str "tinyurl.com" /\ is_shortener i = true)
    /\ (exists i, _analyze_url (str "goo.gl/" ++ rest) = Analysed i
                  /\ domain i = str "goo.gl" /\ is_shortener i = true).
Proof.
  intro rest. unfold _analyze_url.
  repeat split; cbn; eexists; (split; [reflexivity|]); split; reflexivity.
Qed.

(** ** More on the risk score *)

Section ScoreShape.

Local Open Scope R_scope.

Lemma scaled_ratio_monotone (v1 v2 : R) :
  v1 <= v2 ->
  10 * (1 / (1 + pow 2.718 (-10 * (v1 - 0.3))))
  <= 10 * (1 / (1 + pow 2.718 (-10 * (v2 - 0.3)))).
Proof.
  intro H.
  pose proof (pow_positive 2.718 (-10 * (v1 - 0.3))) as H1.
  pose proof (pow_positive 2.718 (-10 * (v2 - 0.3))) as H2.
  assert (Hle : pow 2.718 (-10 * (v2 - 0.3)) <= pow 2.718 (-10 * (v1 - 0.3)))
    by (apply pow_antitone_exponent; lra).
  set (p1 := pow _ (-10 * (v1 - 0.3))) in *.
  set (p2 := pow _ (-10 * (v2 - 0.3))) in *.
  apply Rmult_le_compat_l; [lra|].
  unfold Rdiv. rewrite !Rmult_1_l. apply Rinv_le_contravar; lra.
Qed.

Lemma base_score_monotone (f g : feature_record) :
  features_le f g -> base_score f <= base_score g.
Proof.
  intros (H1 & H2 & H3 & H4 & H5 & H6 & H7 & H8 & H9 & H10 & H11 & H12
          & H13 & H14 & H15).
  rewrite !base_score_sum.
  apply Qle_Rle in H1, H2, H3, H4.
  apply Qle_Rle, scaled_ratio_monotone in H10, H11, H12.
  apply IZR_le in H5, H6, H7, H8, H9, H13, H14, H15.
  lra.
Qed.

Lemma two_factors_monotone (f g : feature_record) :
  features_le f g -> two_factors f -> two_factors g.
Proof.
  intros (H1 & H2 & _ & _ & _ & H6 & _).
  unfold two_factors, has_suspicious_url, high_threat, high_auth.
  assert (Ht : (2 < threat_score f)%Q -> (2 < threat_score g)%Q)
    by (intro; eapply Qlt_le_trans; eauto).
  assert (Ha : (2 < auth_score f)%Q -> (2 < auth_score g)%Q)
    by (intro; eapply Qlt_le_trans; eauto).
  assert (Hs : (0 < suspicious_urls f)%Z -> (0 < suspicious_urls g)%Z) by lia.
  tauto.
Qed.

(** X16.  The score is monotone in every feature: a record whose
    numbers are all at least those of another record never gets the
    lower score, and so never the lower severity band. *)
Theorem calculate_score_monotone :
  forall f g : feature_record,
    features_le f g ->
    calculate_score f <= calculate_score g
    /\ (forall b1 b2 : band,
          band_applies b1 (calculate_score f) ->
          band_applies b2 (calculate_score g) ->
          (band_rank b1 <= band_rank b2)%nat).
Proof.
  intros f g Hle.
  cut (calculate_score f <= calculate_score g).
  { intro Hs. split; [exact Hs|].
    intros [] [] H1 H2; cbn in H1, H2 |- *; try lia; exfalso; lra. }
  assert (Hc : compressed_score f <= compressed_score g).
  { unfold compressed_score. apply Rle_min_compat_l.
    apply round1_monotone, _logistic_scale_monotone, base_score_monotone, Hle. }
  pose proof (compressed_score_range f) as [_ Hf].
  pose proof (compressed_score_range g) as [_ Hg].
  rewrite !calculate_score_unfold.
  destruct (2 <=? count_true (penalty_factors f))%nat eqn:E.
  - apply penalty_count_two_factors in E.
    apply (two_factors_monotone f g Hle), penalty_count_two_factors in E.
    rewrite E. apply Rle_min_compat_l. lra.
  - destruct (2 <=? count_true (penalty_factors g))%nat; [|exact Hc].
    apply Rmin_glb; lra.
Qed.

Lemma calculate_score_monotone_witness :
  calculate_score zero_features <= calculate_score banking_features.
Proof.
  apply (calculate_score_monotone zero_features banking_features).
  repeat split; vm_compute; discriminate.
Defined.

Lemma Rmin_tenths (a b : Z) :
  Rmin (IZR a / 10) (IZR b / 10) = IZR (Z.min a b) / 10.
Proof.
  destruct (Z.le_ge_cases a b) as [H|H].
  - rewrite Z.min_l by exact H. apply IZR_le in H. apply Rmin_left. lra.
  - rewrite Z.min_r by exact H. apply IZR_le in H. apply Rmin_right. lra.
Qed.

(** X17.  The score always has one decimal place: it is one of the 101
    values 0.0, 0.1, ..., 10.0, with or without the bonus. *)
Theorem calculate_score_one_decimal :
  forall f : feature_record,
    exists n : Z, (0 <= n <= 100)%Z /\ calculate_score f = IZR n / 10.
Proof.
  intro f.
  assert (H : exists n : Z, calculate_score f = IZR n / 10).
  { rewrite calculate_score_unfold. unfold compressed_score, round1.
    set (m := round_half_even _).
    replace 10.0 with (IZR 100 / 10) by lra.
    rewrite Rmin_tenths.
    destruct (2 <=? _)%nat; [|eexists; reflexivity].
    replace (IZR (Z.min 100 m) / 10 + 1.0)
      with (IZR (Z.min 100 m + 10) / 10) by (rewrite plus_IZR; lra).
    rewrite Rmin_tenths. eexists. reflexivity. }
  destruct H as [n Hn]. exists n. split; [|exact Hn].
  pose proof (calculate_score_range f) as [Hlo Hhi]. rewrite Hn in Hlo, Hhi.
  split; apply le_IZR; lra.
Qed.

Lemma pow_two_and_a_half : pow 2.718 2.5 < 12.33.
Proof.
  pose proof (pow_positive 2.718 2.5) as Hp.
  assert (Hsq : pow 2.718 2.5 * pow 2.718 2.5 = 2.718 ^ 5).
  { unfold pow. rewrite <- Rpower_plus.
    replace (2.5 + 2.5) with (INR 5) by (simpl; lra).
    apply Rpower_pow. lra. }
  set (p := pow 2.718 2.5) in *.
  destruct (Rlt_le_dec p 12.33) as [H|H]; [exact H | exfalso].
  assert (12.33 * 12.33 <= p * p) by (apply Rmult_le_compat; lra).
  rewrite Hsq in *. simpl in *. lra.
Qed.

Lemma _logistic_scale_floor (x : R) : 0 <= x -> 0.75 < _logistic_scale x.
Proof.
  intro Hx. unfold _logistic_scale.
  pose proof (pow_positive 2.718 (-0.5 * (x - 5))) as Hp.
  assert (Hle : pow 2.718 (-0.5 * (x - 5)) <= pow 2.718 2.5)
    by (apply pow_antitone_exponent; lra).
  pose proof pow_two_and_a_half as H25.
  set (p := pow _ (-0.5 * (x - 5))) in *.
  apply Rmult_lt_reg_r with (1 + p); [lra|].
  unfold Rdiv. rewrite Rmult_assoc, Rinv_l by lra. lra.
Qed.

Lemma round_half_even_above_half (n : Z) (y : R) :
  IZR n + 1 / 2 < y -> (n + 1 <= round_half_even y)%Z.
Proof.
  intro H.
  assert (Hn : (n <= Int_part y)%Z).
  { rewrite <- (Int_part_IZR n). apply Int_part_monotone. lra. }
  destruct (Z.eq_dec n (Int_part y)) as [Heq|Hne].
  - unfold round_half_even. rewrite <- Heq.
    destruct (Rlt_dec (y - IZR n) (1 / 2)); [exfalso; lra|].
    destruct (Rlt_dec (1 / 2) (y - IZR n)); [lia | exfalso; lra].
  - destruct (round_half_even_choice y); lia.
Qed.

Lemma keyword_score_nonneg (table : list (string * Q)) (tokens : list text) :
  positive_weights table -> (0 <= keyword_score table tokens)%Q.
Proof. intro H. apply (keyword_fold_grows table tokens H 0%Q). Qed.

Lemma extracted_base_score_nonneg (s : text) (f : feature_record) :
  extract_features s = Return f -> 0 <= base_score f.
Proof.
  intro H. pose proof H as H'.
  apply extract_features_fields in H'
    as (a & b & c & d & Hl & Ht & Ha & Hb & Hc & _ & He & _ & _ & _
        & Hg & Hu & Hgg & Hts & Has & Hfs & His).
  apply analyze_urls_returns in Hl as (Ha' & Hb' & Hc' & _).
  destruct tables_positive as (Pt & Pa & Pf & Pi).
  pose proof (keyword_score_nonneg threat_keywords (split s) Pt) as Q1.
  pose proof (keyword_score_nonneg auth_keywords (split s) Pa) as Q2.
  pose proof (keyword_score_nonneg financial_keywords (split s) Pf) as Q3.
  pose proof (keyword_score_nonneg impersonation_keywords (split s) Pi) as Q4.
  rewrite <- Hts in Q1. rewrite <- Has in Q2. rewrite <- Hfs in Q3.
  rewrite <- His in Q4.
  apply Qle_Rle in Q1, Q2, Q3, Q4.
  replace (Q2R 0) with 0 in Q1, Q2, Q3, Q4 by lra.
  pose proof (count_if_bounds (is_char "!"%char) s) as [Hx _]. rewrite <- He in Hx.
  assert (G1 : (0 <= greeting_missing f)%Z)
    by (rewrite Hg; unfold _check_greeting; destruct (existsb _ _); lia).
  assert (G2 : (0 <= sense_of_urgency f)%Z)
    by (rewrite Hu; unfold _check_urgency_indicators; destruct (existsb _ _); lia).
  assert (G3 : (0 <= generic_greeting f)%Z)
    by (rewrite Hgg; unfold _check_generic_greeting; destruct (existsb _ _); lia).
  assert (U0 : (0 <= total_urls f)%Z) by lia.
  assert (U1 : (0 <= suspicious_urls f)%Z) by lia.
  assert (U2 : (0 <= suspicious_domains f)%Z) by lia.
  assert (U3 : (0 <= ip_address_urls f)%Z) by lia.
  apply IZR_le in Hx, G1, G2, G3, U0, U1, U2, U3.
  rewrite base_score_sum.
  pose proof (scaled_ratio_positive (Q2R (all_caps_ratio f)) 0.5 ltac:(lra)).
  pose proof (scaled_ratio_positive (Q2R (digit_ratio f)) 0.4 ltac:(lra)).
  pose proof (scaled_ratio_positive (Q2R (special_char_ratio f)) 0.3 ltac:(lra)).
  lra.
Qed.

(** X18.  No text gets a score below 0.8: whatever [extract_features]
    returns, its numbers are not negative, so the base score is not
    negative, and the logistic scaling of 0 already rounds to 0.8. *)
Theorem extracted_score_floor :
  forall (s : text) (f : feature_record),
    extract_features s = Return f -> 0.8 <= calculate_score f.
Proof.
  intros s f H. apply extracted_base_score_nonneg in H.
  assert (Hc : 0.8 <= compressed_score f).
  { unfold compressed_score. apply Rmin_glb; [lra|]. unfold round1.
    pose proof (_logistic_scale_floor (base_score f) H) as Hl.
    pose proof (round_half_even_above_half 7 (_logistic_scale (base_score f) * 10)
                  ltac:(lra)) as Hr.
    apply IZR_le in Hr. rewrite plus_IZR in Hr. lra. }
  pose proof (compressed_score_range f) as [_ Hhi].
  rewrite calculate_score_unfold.
  destruct (2 <=? _)%nat; [apply Rmin_glb; lra | exact Hc].
Qed.

Lemma extracted_score_floor_witness : 0.8 <= calculate_score meeting_features.
Proof.
  apply (extracted_score_floor (preprocess_text meeting_text) meeting_features).
  vm_compute. reflexivity.
Defined.

End ScoreShape.

(** ** Recommendations *)

Lemma detect_analysis_parts (now : string) (t : text) (result : classified)
      (explanations : list explanation) (recommendations : list string) :
  snd (detect now t) = Return (Analysis result explanations recommendations) ->
  exists f,
    extract_features (preprocess_text t) = Return f
    /\ result = _classify now (calculate_score f) f t (preprocess_text t)
    /\ explanations = _explain_features f
    /\ recommendations = _generate_recommendations (classification result).
Proof.
  unfold detect.
  destruct (negb (truthy t) || negb (truthy (strip t))); [cbn; discriminate|].
  unfold and_then, invoke.
  destruct (extract_features (preprocess_text t)) as [f|e];
    cbn [snd]; [|discriminate].
  intro H. injection H as <- <- <-. exists f. repeat split.
Qed.

Lemma _classify_labels (now : string) (s : R) (f : feature_record)
      (original processed : text) :
  let r := _classify now s f original processed in
  ((severity r = "critical" /\ classification r = "🔴 High Risk Phishing")
   \/ (severity r = "high" /\ classification r = "🟠 Suspicious Message")
   \/ (severity r = "medium" /\ classification r = "🟡 Moderate Risk")
   \/ (severity r = "low" /\ classification r = "🟢 Likely Safe"))%string.
Proof.
  unfold _classify.
  destruct (Rge_dec s high_risk);
    [|destruct (Rge_dec s medium_risk); [|destruct (Rge_dec s low_risk)]];
    cbn [severity classification]; tauto.
Qed.

(** X19.  The recommendations of an analysis follow its severity:
    [critical] gets the list kept for a label with "High Risk", [high]
    the list kept for a label with "Suspicious", [medium] and [low]
    share the third list; the three lists differ and hold five entries
    each. *)
Theorem recommendations_follow_severity :
  forall (now : string) (t : text) (result : classified)
         (explanations : list explanation) (recommendations : list string),
    snd (detect now t) = Return (Analysis result explanations recommendations) ->
    List.length recommendations = 5%nat
    /\ (severity result = "critical"%string ->
        recommendations = _generate_recommendations "High Risk")
    /\ (severity result = "high"%string ->
        recommendations = _generate_recommendations "Suspicious")
    /\ (severity result = "medium"%string \/ severity result = "low"%string ->
        recommendations = _generate_recommendations "")
    /\ _generate_recommendations "High Risk" <> _generate_recommendations "Suspicious"
    /\ _generate_recommendations "High Risk" <> _generate_recommendations ""
    /\ _generate_recommendations "Suspicious" <> _generate_recommendations "".
Proof.
  intros now t result explanations recommendations H.
  apply detect_analysis_parts in H as (f & _ & Hr & _ & ->).
  pose proof (_classify_labels now (calculate_score f) f t (preprocess_text t))
    as HL.
  cbv zeta in HL. rewrite <- Hr in HL.
  destruct HL as [[Hs ->]|[[Hs ->]|[[Hs ->]|[Hs ->]]]]; rewrite Hs;
    repeat split; try reflexivity; try discriminate;
    intro Hx; try discriminate Hx;
    try (destruct Hx as [Hx|Hx]; discriminate Hx);
    try (destruct Hx as [Hx|Hx]; reflexivity).
Qed.

Lemma recommendations_follow_severity_witness :
  List.length
    (_generate_recommendations
       (classification
          (_classify a_time (calculate_score hello_features) hello_features
                     hello_text (preprocess_text hello_text)))) = 5%nat.
Proof.
  refine (proj1 (recommendations_follow_severity a_time hello_text _ _ _ _)).
  rewrite hello_detect. reflexivity.
Defined.

(** ** Capital letters and greetings *)


Lemma contains_append (p a b : text) : contains p (a ++ p ++ b) = true.
Proof.
  assert (Hs : forall q r, starts_with q (q ++ r) = true).
  { induction q as [|c q IH]; intro r; [reflexivity|].
    cbn [app starts_with]. now rewrite Ascii.eqb_refl, IH. }
  induction a as [|c a IH].
  - cbn [app]. destruct (p ++ b) eqn:E; cbn [contains];
      rewrite <- E, Hs; reflexivity.
  - cbn [app contains]. rewrite IH. apply orb_true_r.
Qed.

(** X21.  The greeting test looks for its words as substrings: a text
    with the letters "hi" anywhere within its first 50 characters, also
    inside a longer word, is never reported as missing a greeting. *)
Theorem hi_anywhere_counts_as_greeting :
  forall a b : text,
    (List.length a <= 48)%nat ->
    _check_greeting (a ++ str "hi" ++ b) = 0%Z.
Proof.
  intros a b Ha. unfold _check_greeting.
  assert (H50 : firstn 50 (a ++ str "hi" ++ b)
                = a ++ str "hi" ++ firstn (48 - List.length a) b).
  { rewrite firstn_app, (firstn_all2 a) by lia. f_equal.
    replace (50 - List.length a)%nat with (S (S (48 - List.length a))) by lia.
    reflexivity. }
  rewrite H50. unfold lower. rewrite !map_app. cbn [existsb].
  change (map lower_char (str "hi")) with (str "hi").
  now rewrite contains_append.
Qed.

Lemma hi_anywhere_counts_as_greeting_witness :
  _check_greeting (str "t" ++ str "hi" ++ str "s is your bank") = 0%Z.
Proof.
  apply (hi_anywhere_counts_as_greeting (str "t") (str "s is your bank")).
  vm_compute. lia.
Defined.
